(** * CVAT event-log export: a shallow embedding of
      [cvat/apps/events/export.py] and the properties of its
      request / poll / deliver state machine. *)

From Stdlib Require Import PrimFloat ZArith.
From stdpp Require Import functions gmap strings list fin_maps.

Local Open Scope string_scope.
Local Open Scope list_scope.

(** ** Python values *)

(** The values that flow through [query_params]: [None], a [str] taken from
    the request's query string, or the [float] returned by
    [datetime.timestamp()]. *)
Inductive pyval : Type :=
  | PyNone
  | PyStr (s : string)
  | PyFloat (f : float).

(** Python's truth value ([if value:]): [None], the empty string and a zero
    float (of either sign) are false, everything else is true. *)
Definition truthy (v : pyval) : bool :=
  match v with
  | PyNone => false
  | PyStr s => negb (bool_decide (s = ""))
  | PyFloat f => negb (PrimFloat.eqb f 0%float)
  end.

(** [d.get(key, None)] on the request's [QueryDict]. *)
Definition of_get (o : option string) : pyval :=
  match o with
  | Some s => PyStr s
  | None => PyNone
  end.

(** The exceptions the two functions can raise. [ParserError] stands for
    whatever the conversion [parser.parse(s).timestamp()] raises: dateutil's
    [ParserError], or the [ValueError] and [OverflowError] that [parse] and
    [timestamp()] raise for dates out of range; the classes are not told
    apart. *)
Inductive exn : Type :=
  | KeyError (key : string)
  | TypeError
  | ParserError
  | ValidationError (detail : string)
  | ClickHouseError
  | OSError.

Inductive res (A : Type) : Type :=
  | Ok (a : A)
  | Raise (e : exn).
Arguments Ok {A} a.
Arguments Raise {A} e.

(** ** Python dictionaries

    A [dict] keeps its keys in insertion order and [_create_csv] iterates over
    [items()], so the order is part of the behaviour: a dictionary is an
    association list whose keys are pairwise distinct. *)
Module PyDict.

Definition dict : Type := list (string * pyval).

Fixpoint get (k : string) (d : dict) : option pyval :=
  match d with
  | [] => None
  | (k', v) :: d' => if String.eqb k' k then Some v else get k d'
  end.

(** [d[k]]: the value, or [KeyError]. *)
Definition getitem (k : string) (d : dict) : res pyval :=
  match get k d with
  | Some v => Ok v
  | None => Raise (KeyError k)
  end.

(** [d[k] = v]: overwrite in place, or append a new key at the end. *)
Fixpoint set (k : string) (v : pyval) (d : dict) : dict :=
  match d with
  | [] => [(k, v)]
  | (k', v') :: d' =>
      if String.eqb k' k then (k, v) :: d' else (k', v') :: set k v d'
  end.

Fixpoint remove (k : string) (d : dict) : dict :=
  match d with
  | [] => []
  | (k', v) :: d' => if String.eqb k' k then d' else (k', v) :: remove k d'
  end.

(** [d.pop(k)] without a default: the value and the shrunk dictionary, or
    [KeyError] (and the dictionary as it was). *)
Definition pop (k : string) (d : dict) : res pyval * dict :=
  match get k d with
  | Some v => (Ok v, remove k d)
  | None => (Raise (KeyError k), d)
  end.

Definition keys (d : dict) : list string := d.*1.

Definition has_key (k : string) (d : dict) : Prop := k ∈ keys d.

(** The invariant of every Python dictionary: no key occurs twice. *)
Definition wf (d : dict) : Prop := NoDup (keys d).

End PyDict.
Export PyDict (dict).

(** ** A state-and-exception monad

    Both functions run against mutable external state (the RQ job registry
    for [export], the worker's heap and file system for [_create_csv]) and
    either return or raise; what was written before an exception stays
    written. *)
Definition ST (S A : Type) : Type := S → res A * S.

Global Instance ST_ret {S} : MRet (ST S) := λ A a st, (Ok a, st).
Global Instance ST_bind {S} : MBind (ST S) := λ A B f m st,
  match m st with
  | (Ok a, st') => f a st'
  | (Raise e, st') => (Raise e, st')
  end.

Definition raise {S A} (e : exn) : ST S A := λ st, (Raise e, st).

Definition lift {S A} (r : res A) : ST S A := λ st, (r, st).

(** [if cond: raise e] *)
Definition raise_if {S} (cond : bool) (e : exn) : ST S () :=
  if cond then raise e else mret ().

(** ** HTTP requests and responses *)

(** [request.query_params] (the last value of each key, as [QueryDict.get]
    returns it) and [str(request.user)]. *)
Record Request : Type := {
  query_params : gmap string string;
  user : string;
}.

Inductive body : Type :=
  | BodyDict (d : list (string * string))
  | BodyStr (s : string).

(** What [export] returns: a rest_framework [Response(data, status)], or the
    file response built by [sendfile]. *)
Inductive response : Type :=
  | Response (data : option body) (status : Z)
  | SendFile (file_path : string) (attachment : bool)
             (attachment_filename : string).

Definition HTTP_201_CREATED : Z := 201.
Definition HTTP_202_ACCEPTED : Z := 202.
Definition HTTP_500_INTERNAL_SERVER_ERROR : Z := 500.

(** ** The RQ job registry *)

(** A job's status, with what RQ stores for it: [return_value] for a finished
    job, [exc_info] for a failed one. *)
Inductive JobStatus : Type :=
  | QUEUED
  | STARTED
  | DEFERRED
  | SCHEDULED
  | STOPPED
  | CANCELED
  | FINISHED (return_value : string)
  | FAILED (exc_info : option string).

(** The arguments of an enqueued [_create_csv] call and the job's TTLs. *)
Record Job : Type := {
  job_status : JobStatus;
  job_args : dict * string * Z;
  job_result_ttl : Z;
  job_failure_ttl : Z;
}.

Definition is_finished (j : Job) : bool :=
  match job_status j with FINISHED _ => true | _ => false end.

Definition is_failed (j : Job) : bool :=
  match job_status j with FAILED _ => true | _ => false end.

(** The calls [export] makes on the queue, in order. *)
Inductive rq_call : Type :=
  | FetchJob (job_id : string)
  | DeleteJob (job_id : string)
  | EnqueueCall (job_id : string).

(** The queue named [queue_name]: its job records by id, and the log of the
    calls made on it. *)
Record rq_state : Type := {
  rq_jobs : gmap string Job;
  rq_log : list rq_call;
}.

Definition fetch_job (job_id : string) : ST rq_state (option Job) := λ st,
  (Ok (rq_jobs st !! job_id),
   {| rq_jobs := rq_jobs st; rq_log := rq_log st ++ [FetchJob job_id] |}).

Definition job_delete (job_id : string) : ST rq_state () := λ st,
  (Ok (),
   {| rq_jobs := delete job_id (rq_jobs st);
      rq_log := rq_log st ++ [DeleteJob job_id] |}).

(** [queue.enqueue_call(func=_create_csv, args, job_id, result_ttl,
    failure_ttl)]: a queued job is saved under [job_id], over whatever record
    was there. *)
Definition enqueue_call (args : dict * string * Z) (job_id : string)
    (result_ttl failure_ttl : Z) : ST rq_state () := λ st,
  (Ok (),
   {| rq_jobs := <[job_id :=
        {| job_status := QUEUED; job_args := args;
           job_result_ttl := result_ttl; job_failure_ttl := failure_ttl |}]>
        (rq_jobs st);
      rq_log := rq_log st ++ [EnqueueCall job_id] |}).

(** ** Job identifiers *)

(** [f"export:csv-logs-{query_id}-by-{request.user}"] *)
Definition rq_id_of (query_id user : string) : string :=
  "export:csv-logs-" +:+ query_id +:+ "-by-" +:+ user.

(** [DEFAULT_CACHE_TTL = timedelta(hours=1)], in seconds. *)
Definition DEFAULT_CACHE_TTL : Z := 3600.

(** [os.path.join(a, b)] of [posixpath]. *)
Definition os_path_join (a b : string) : string :=
  if String.prefix "/" b then b
  else if bool_decide (a = "") || String.prefix "/" (String.rev a) then a +:+ b
  else a +:+ "/" +:+ b.

(** [a > b] on Python values: defined between two floats and between two
    strings, [TypeError] otherwise. *)
Definition py_gt (a b : pyval) : res bool :=
  match a, b with
  | PyFloat x, PyFloat y => Ok (PrimFloat.ltb y x)
  | PyStr x, PyStr y => Ok (String.ltb y x)
  | _, _ => Raise TypeError
  end.

(** [x or y] on an optional string. *)
Definition str_or (x : option string) (y : string) : string :=
  match x with
  | Some s => if bool_decide (s = "") then y else s
  | None => y
  end.

(** [str(x)] of an optional string. *)
Definition py_str (x : option string) : string :=
  match x with
  | Some s => s
  | None => "None"
  end.

(** ** [export] *)

Section Orchestrator.

(** [parser.parse(s).timestamp()] of dateutil; [None] when the conversion
    raises, in [parse] or in [timestamp()]. *)
Variable parse_timestamp : string → option float.
(** [str(uuid.uuid4())] *)
Variable uuid4 : string.
(** [datetime.strftime(datetime.now(), "%Y_%m_%d_%H_%M_%S")] *)
Variable now : string.
(** [os.path.exists] *)
Variable path_exists : string → bool.
(** [settings.TMP_FILES_ROOT] *)
Variable TMP_FILES_ROOT : string.

Definition parser_parse_timestamp (v : pyval) : res pyval :=
  match v with
  | PyStr s =>
      match parse_timestamp s with
      | Some f => Ok (PyFloat f)
      | None => Raise ParserError
      end
  | _ => Raise TypeError
  end.

(** Lines 98-102: [if query_params[k]: query_params[k] = parse(...)]. *)
Definition parse_param (k : string) (qp : dict) : ST rq_state dict :=
  v ← lift (PyDict.getitem k qp);
  if truthy v then
    ts ← lift (parser_parse_timestamp v);
    mret (PyDict.set k ts qp)
  else mret qp.

(** Line 104: [query_params['from'] and query_params['to'] and
    query_params['from'] > query_params['to']], as a truth value. *)
Definition from_after_to (qp : dict) : ST rq_state bool :=
  f ← lift (PyDict.getitem "from" qp);
  if truthy f then
    t ← lift (PyDict.getitem "to" qp);
    if truthy t then
      f' ← lift (PyDict.getitem "from" qp);
      t' ← lift (PyDict.getitem "to" qp);
      lift (py_gt f' t')
    else mret false
  else mret false.

(** Lines 107-108: [any((query_params["organization"], ...))]. *)
Definition any_scope (qp : dict) : ST rq_state bool :=
  o ← lift (PyDict.getitem "organization" qp);
  p ← lift (PyDict.getitem "project" qp);
  t ← lift (PyDict.getitem "task" qp);
  j ← lift (PyDict.getitem "job" qp);
  u ← lift (PyDict.getitem "user" qp);
  mret (existsb truthy [o; p; t; j; u]).

(** Line 111: [action not in (None, 'download')]. *)
Definition action_unexpected (action : option string) : bool :=
  match action with
  | None => false
  | Some a => negb (bool_decide (a = "download"))
  end.

(** Lines 146-155: enqueue [_create_csv] under [rq_id] and answer 202. *)
Definition submit (qp : dict) (query_id rq_id : string) (response_data : body)
    : ST rq_state response :=
  let ttl := DEFAULT_CACHE_TTL in
  let output_filename := os_path_join TMP_FILES_ROOT (query_id +:+ ".csv") in
  _ ← enqueue_call (qp, output_filename, DEFAULT_CACHE_TTL) rq_id ttl ttl;
  mret (Response (Some response_data) HTTP_202_ACCEPTED).

(** Lines 124-144: the branches on a fetched job; [None] is the fall-through
    to the code after the [if rq_job:] block. *)
Definition poll (action filename : option string) (rq_id : string)
    (response_data : body) (rq_job : option Job)
    : ST rq_state (option response) :=
  match rq_job with
  | Some job =>
      match job_status job with
      | FINISHED file_path =>
          if bool_decide (action = Some "download") && path_exists file_path
          then
            _ ← job_delete rq_id;
            let filename := str_or filename ("logs_" +:+ now +:+ ".csv") in
            mret (Some (SendFile file_path true filename))
          else if path_exists file_path
          then mret (Some (Response None HTTP_201_CREATED))
          else mret None
      | FAILED exc_info =>
          let exc_info := py_str exc_info in
          _ ← job_delete rq_id;
          mret (Some (Response (Some (BodyStr exc_info))
                               HTTP_500_INTERNAL_SERVER_ERROR))
      | _ => mret (Some (Response (Some response_data) HTTP_202_ACCEPTED))
      end
  | None => mret None
  end.

Definition export (request : Request) : ST rq_state response :=
  let action := query_params request !! "action" in
  let filename := query_params request !! "filename" in
  let qp : dict :=
    [ ("organization", of_get (query_params request !! "org"));
      ("project", of_get (query_params request !! "project"));
      ("task", of_get (query_params request !! "task"));
      ("job", of_get (query_params request !! "job"));
      ("user", of_get (query_params request !! "user"));
      ("from", of_get (query_params request !! "from"));
      ("to", of_get (query_params request !! "to")) ] in
  qp ← parse_param "from" qp;
  qp ← parse_param "to" qp;
  bad_range ← from_after_to qp;
  _ ← raise_if bad_range (ValidationError "'from' must be before than 'to'");
  scoped ← any_scope qp;
  _ ← raise_if (negb scoped) (ValidationError
    "One of 'org', 'project', 'task', 'job', 'user' parameter must be specified");
  _ ← raise_if (action_unexpected action)
    (ValidationError "Unexpected action specified for the request");
  let query_id := str_or (query_params request !! "query-id") uuid4 in
  let rq_id := rq_id_of query_id (user request) in
  let response_data := BodyDict [("query-id", query_id)] in
  rq_job ← fetch_job rq_id;
  answered ← poll action filename rq_id response_data rq_job;
  match answered with
  | Some r => mret r
  | None => submit qp query_id rq_id response_data
  end.

End Orchestrator.

(** ** [_create_csv] *)

(** What [client.query] returns, with every cell already rendered. *)
Record query_result : Type := {
  column_names : list string;
  result_rows : list (list string);
}.

Record csv_file : Type := {
  file_ctime : float;
  file_rows : list (list string);
}.

(** A deferred [clear_export_cache(file_path, file_ctime)]. *)
Record cleaning_job : Type := {
  time_delta : Z;
  file_path : string;
  archive_ctime : float;
}.

Inductive log_record : Type :=
  | LogException
  | LogCreated (output_filename : string).

(** The worker's world. Dictionaries live on a heap and are passed by
    address, so a caller that keeps the address sees what the callee did to
    the dictionary. *)
Record worker_state : Type := {
  heap : nat → dict;
  files : gmap string csv_file;
  clickhouse_calls : list (string * dict);
  cleaning_jobs : list cleaning_job;
  slogger : list log_record;
}.

Definition set_heap (h : nat → dict) (st : worker_state) : worker_state :=
  {| heap := h; files := files st; clickhouse_calls := clickhouse_calls st;
     cleaning_jobs := cleaning_jobs st; slogger := slogger st |}.

Definition dict_pop (d : nat) (k : string) : ST worker_state pyval := λ st,
  let '(r, d') := PyDict.pop k (heap st d) in
  (r, set_heap (<[d := d']> (heap st)) st).

Definition dict_items (d : nat) : ST worker_state dict := λ st,
  (Ok (heap st d), st).

Definition log (r : log_record) : ST worker_state () := λ st,
  (Ok (),
   {| heap := heap st; files := files st;
      clickhouse_calls := clickhouse_calls st;
      cleaning_jobs := cleaning_jobs st; slogger := slogger st ++ [r] |}).

(** [try: body  except Exception: log_exception(slogger.glob); raise] *)
Definition try_log_reraise {A} (body : ST worker_state A)
    : ST worker_state A := λ st,
  match body st with
  | (Ok a, st') => (Ok a, st')
  | (Raise e, st') => (Raise e, (log LogException st').2)
  end.

(** Lines 37-40: the loop over [query_params.items()]. *)
Fixpoint scalar_conditions (items : dict) (conditions : list string)
    (parameters : dict) : list string * dict :=
  match items with
  | [] => (conditions, parameters)
  | (param, value) :: items =>
      if truthy value then
        scalar_conditions items
          (conditions ++ [param +:+ " = {" +:+ param +:+ ":UInt64}"])
          (PyDict.set param value parameters)
      else scalar_conditions items conditions parameters
  end.

(** Lines 42-48: [if time_filter[k]: conditions.append(cond);
    parameters[k] = time_filter[k]]. *)
Definition time_condition (k cond : string) (value : pyval)
    (acc : list string * dict) : list string * dict :=
  if truthy value then (acc.1 ++ [cond], PyDict.set k value acc.2) else acc.

Section Worker.

(** [client.query(query, parameters)] on the connection that
    [clickhouse_connect.get_client] opens from [settings.CLICKHOUSE]; [None]
    when connecting or querying raises. *)
Variable clickhouse : string → dict → option query_result.
(** Whether [open(path, 'w')] succeeds. *)
Variable can_open : string → bool.
(** The change time the file system stamps on a file written now. *)
Variable ctime_now : float.

Definition client_query (query : string) (parameters : dict)
    : ST worker_state query_result := λ st,
  let st' :=
    {| heap := heap st; files := files st;
       clickhouse_calls := clickhouse_calls st ++ [(query, parameters)];
       cleaning_jobs := cleaning_jobs st; slogger := slogger st |} in
  match clickhouse query parameters with
  | Some result => (Ok result, st')
  | None => (Raise ClickHouseError, st')
  end.

(** Lines 62-65: header row, then the result rows. Of the steps of the
    write only [open] is let fail: a [writerow] that raises once the file is
    open and truncated is outside this model. *)
Definition write_csv (output_filename : string) (result : query_result)
    : ST worker_state () := λ st,
  if can_open output_filename then
    (Ok (),
     {| heap := heap st;
        files := <[output_filename :=
          {| file_ctime := ctime_now;
             file_rows := column_names result :: result_rows result |}]>
          (files st);
        clickhouse_calls := clickhouse_calls st;
        cleaning_jobs := cleaning_jobs st; slogger := slogger st |})
  else (Raise OSError, st).

Definition getctime (path : string) : ST worker_state float := λ st,
  match files st !! path with
  | Some f => (Ok (file_ctime f), st)
  | None => (Raise OSError, st)
  end.

(** [scheduler.enqueue_in(time_delta, func=clear_export_cache, file_path,
    file_ctime)]. The scheduler is taken to be reachable: a failure to
    schedule, which would come after the file is written, is outside this
    model. *)
Definition enqueue_in (delta : Z) (path : string) (ctime : float)
    : ST worker_state () := λ st,
  (Ok (),
   {| heap := heap st; files := files st;
      clickhouse_calls := clickhouse_calls st;
      cleaning_jobs := cleaning_jobs st ++
        [{| time_delta := delta; file_path := path; archive_ctime := ctime |}];
      slogger := slogger st |}).

(** [query_params] is the address of the caller's dictionary.
    [settings.CLICKHOUSE['events']] and the queue names are deployment
    configuration and taken as present; the text of the log messages is not
    kept, only that they were written. *)
Definition _create_csv (query_params : nat) (output_filename : string)
    (cache_ttl : Z) : ST worker_state string :=
  try_log_reraise (
    time_from ← dict_pop query_params "from";
    time_to ← dict_pop query_params "to";
    let query := "SELECT * FROM events" in
    items ← dict_items query_params;
    let acc := scalar_conditions items [] [] in
    let acc := time_condition "from" "timestamp >= {from:DateTime64}"
                 time_from acc in
    let acc := time_condition "to" "timestamp <= {to:DateTime64}"
                 time_to acc in
    let '(conditions, parameters) := acc in
    let query :=
      match conditions with
      | [] => query
      | _ => query +:+ " WHERE " +:+ String.concat " AND " conditions
      end in
    result ← client_query query parameters;
    _ ← write_csv output_filename result;
    archive_ctime ← getctime output_filename;
    _ ← enqueue_in cache_ttl output_filename archive_ctime;
    _ ← log (LogCreated output_filename);
    mret output_filename).

End Worker.

(** ** The vocabulary of the properties *)

Section ExportSpec.

Variable parse_timestamp : string → option float.
Variable uuid4 : string.
Variable now : string.
Variable path_exists : string → bool.
Variable TMP_FILES_ROOT : string.

(** A query parameter of the request, as [query_params.get(k, None)]. *)
Definition param (request : Request) (k : string) : pyval :=
  of_get (query_params request !! k).

(** The query id of a request: the caller's, or a fresh one. *)
Definition query_id_of (request : Request) : string :=
  str_or (query_params request !! "query-id") uuid4.

(** The JobId derived from a request. *)
Definition job_id_of (request : Request) : string :=
  rq_id_of (query_id_of request) (user request).

(** The body [{'query-id': query_id}]. *)
Definition query_id_body (request : Request) : body :=
  BodyDict [("query-id", query_id_of request)].

(** A populated [from]/[to] parameter cannot be parsed as a date. *)
Definition unparseable (request : Request) (k : string) : Prop :=
  ∃ s, query_params request !! k = Some s ∧ s ≠ "" ∧ parse_timestamp s = None.

(** A [from]/[to] parameter is absent, empty, or a date whose timestamp is
    not zero. *)
Definition well_dated (request : Request) (k : string) : Prop :=
  match query_params request !! k with
  | Some s =>
      s = "" ∨
      ∃ f, parse_timestamp s = Some f ∧ PrimFloat.eqb f 0%float = false
  | None => True
  end.

(** None of the five scope filters is populated. *)
Definition no_scope_filter (request : Request) : Prop :=
  ∀ k, k ∈ ["org"; "project"; "task"; "job"; "user"] →
       truthy (param request k) = false.

(** Both [from] and [to] are populated and [from] is the later one. *)
Definition from_later_than_to (request : Request) : Prop :=
  ∃ s1 s2 f t,
    query_params request !! "from" = Some s1 ∧ s1 ≠ "" ∧
    query_params request !! "to" = Some s2 ∧ s2 ≠ "" ∧
    parse_timestamp s1 = Some f ∧ parse_timestamp s2 = Some t ∧
    PrimFloat.ltb t f = true.

(** [action] is neither absent nor ["download"]. *)
Definition unsupported_action (request : Request) : Prop :=
  ∃ a, query_params request !! "action" = Some a ∧ a ≠ "download".

(** The three validation failures of the request. *)
Definition invalid (request : Request) : Prop :=
  no_scope_filter request ∨ from_later_than_to request ∨
  unsupported_action request.

(** A request that passes every check of [export]. *)
Definition valid (request : Request) : Prop :=
  ¬ unparseable request "from" ∧ ¬ unparseable request "to" ∧
  ¬ invalid request.

(** The calls a run of [export] added to the queue's log. *)
Definition calls_of (request : Request) (st : rq_state) (calls : list rq_call)
    : Prop :=
  rq_log (export parse_timestamp uuid4 now path_exists TMP_FILES_ROOT
            request st).2 = rq_log st ++ calls.

(** *** [export] in two phases

    Everything [export] does before it touches the queue depends on the
    request alone: [checks] is that phase as a function, [serve] is the
    rest. *)

Definition parsed (v : pyval) : res pyval :=
  if truthy v then parser_parse_timestamp parse_timestamp v else Ok v.

Definition later (f t : pyval) : bool :=
  match f, t with
  | PyFloat x, PyFloat y => PrimFloat.ltb y x
  | _, _ => false
  end.

Definition filters (request : Request) (f t : pyval) : dict :=
  [ ("organization", param request "org");
    ("project", param request "project");
    ("task", param request "task");
    ("job", param request "job");
    ("user", param request "user");
    ("from", f);
    ("to", t) ].

Definition scoped (request : Request) : bool :=
  existsb truthy
    [ param request "org"; param request "project"; param request "task";
      param request "job"; param request "user" ].

Definition checks (request : Request) : res dict :=
  match parsed (param request "from") with
  | Raise e => Raise e
  | Ok f =>
      match parsed (param request "to") with
      | Raise e => Raise e
      | Ok t =>
          if truthy f && truthy t && later f t then
            Raise (ValidationError "'from' must be before than 'to'")
          else if negb (scoped request) then
            Raise (ValidationError
              "One of 'org', 'project', 'task', 'job', 'user' parameter must be specified")
          else if action_unexpected (query_params request !! "action") then
            Raise (ValidationError "Unexpected action specified for the request")
          else Ok (filters request f t)
      end
  end.

Definition serve (request : Request) (qp : dict) : ST rq_state response :=
  rq_job ← fetch_job (job_id_of request);
  answered ← poll now path_exists (query_params request !! "action")
                (query_params request !! "filename") (job_id_of request)
                (query_id_body request) rq_job;
  match answered with
  | Some r => mret r
  | None =>
      submit TMP_FILES_ROOT qp (query_id_of request) (job_id_of request)
        (query_id_body request)
  end.

(** The outcome of the three validation checks, once both dates are
    through the parser. *)
Definition verdict (request : Request) (f t : pyval) : res dict :=
  if truthy f && truthy t && later f t then
    Raise (ValidationError "'from' must be before than 'to'")
  else if negb (scoped request) then
    Raise (ValidationError
      "One of 'org', 'project', 'task', 'job', 'user' parameter must be specified")
  else if action_unexpected (query_params request !! "action") then
    Raise (ValidationError "Unexpected action specified for the request")
  else Ok (filters request f t).

(** The record [enqueue_call] saves. *)
Definition queued_job (request : Request) (qp : dict) : Job :=
  {| job_status := QUEUED;
     job_args := (qp, os_path_join TMP_FILES_ROOT (query_id_of request +:+ ".csv"),
                  DEFAULT_CACHE_TTL);
     job_result_ttl := DEFAULT_CACHE_TTL;
     job_failure_ttl := DEFAULT_CACHE_TTL |}.

Definition accepted (request : Request) : response :=
  Response (Some (query_id_body request)) HTTP_202_ACCEPTED.

(** A response whose body is a mapping with the query id under
    ["query-id"]. *)
Definition carries_query_id (query_id : string) (r : response) : Prop :=
  match r with
  | Response (Some (BodyDict d)) _ => ("query-id", query_id) ∈ d
  | _ => False
  end.

End ExportSpec.

(** ** The query the worker is to build *)

(** The entries of a dictionary whose value is populated. *)
Definition populated (d : dict) : dict :=
  List.filter (λ kv, truthy kv.2) d.

(** [name = {name:UInt64}]: an equality on a column, its value bound by
    name. *)
Definition equality_predicate (name : string) : string :=
  name +:+ " = {" +:+ name +:+ ":UInt64}".

(** The predicates of a query: one equality per populated scalar filter,
    then the two bounds on [timestamp]. Only the names of the filters and
    whether the bounds are set go in, never a value. *)
Definition predicates (names : list string) (has_from has_to : bool)
    : list string :=
  (equality_predicate <$> names)
  ++ (if has_from then ["timestamp >= {from:DateTime64}"] else [])
  ++ (if has_to then ["timestamp <= {to:DateTime64}"] else []).

(** The whole-table select, narrowed by the conjunction of the predicates
    when there is one. *)
Definition select_events (preds : list string) : string :=
  "SELECT * FROM events" +:+
  match preds with
  | [] => ""
  | _ => " WHERE " +:+ String.concat " AND " preds
  end.

(** The parameters bound to the query: the populated scalar filters and the
    populated bounds, each under its own name. *)
Definition bound_parameters (scalars : dict) (f t : pyval) : dict :=
  populated scalars
  ++ (if truthy f then [("from", f)] else [])
  ++ (if truthy t then [("to", t)] else []).

(** Lines 53-79 of [_create_csv]: everything from the query on. *)
Definition produce (clickhouse : string → dict → option query_result)
    (can_open : string → bool) (ctime_now : float)
    (output_filename : string) (cache_ttl : Z)
    (query : string) (parameters : dict) : ST worker_state string :=
  result ← client_query clickhouse query parameters;
  _ ← write_csv can_open ctime_now output_filename result;
  archive_ctime ← getctime output_filename;
  _ ← enqueue_in cache_ttl output_filename archive_ctime;
  _ ← log (LogCreated output_filename);
  mret output_filename.

(** The worker's state once [key] is popped from the dictionary at [d]. *)
Definition popped (d : nat) (key : string) (st : worker_state)
    : worker_state :=
  set_heap (<[d := PyDict.remove key (heap st d)]> (heap st)) st.

(** ** Scenarios

    The concrete requests, queues and worker states on which the properties
    below are exercised. *)
Module Scenario.

(** dateutil on the strings used here: the two dates of the export scenario
    (January and February 2023, UTC), the epoch and the day before it, and
    nothing else. *)
Definition parse (s : string) : option float :=
  if String.eqb s "2023-01-01T00:00:00Z" then Some 1672531200%float
  else if String.eqb s "2023-02-01T00:00:00Z" then Some 1675209600%float
  else if String.eqb s "1970-01-01T00:00:00Z" then Some 0%float
  else if String.eqb s "1969-12-31T00:00:00Z" then Some (-86400)%float
  else None.

Definition uuid : string := "0f8fad5b-d9cb-469f-a165-70867728950e".
Definition now : string := "2023_03_01_12_00_00".
Definition root : string := "/tmp".
Definition artifact : string := "/tmp/q1.csv".
Definition job_id : string := "export:csv-logs-q1-by-admin".

(** Whether the artifact is still on disk. *)
Definition on_disk (p : string) : bool := String.eqb p artifact.
Definition evicted (p : string) : bool := false.

(** [?task=5&from=...&to=...&query-id=q1], by [admin]. *)
Definition poll_request : Request :=
  {| query_params :=
       {[ "task" := "5"; "from" := "2023-01-01T00:00:00Z";
          "to" := "2023-02-01T00:00:00Z"; "query-id" := "q1" ]};
     user := "admin" |}.

(** The same poll with [action=download]. *)
Definition download_request : Request :=
  {| query_params := <["action" := "download"]> (query_params poll_request);
     user := "admin" |}.

(** [from] and [to] exchanged. *)
Definition reversed_request : Request :=
  {| query_params :=
       {[ "task" := "5"; "from" := "2023-02-01T00:00:00Z";
          "to" := "2023-01-01T00:00:00Z"; "query-id" := "q1" ]};
     user := "admin" |}.

(** [from] at the epoch, [to] a day earlier. *)
Definition epoch_request : Request :=
  {| query_params :=
       {[ "task" := "5"; "from" := "1970-01-01T00:00:00Z";
          "to" := "1969-12-31T00:00:00Z"; "query-id" := "q1" ]};
     user := "admin" |}.

(** No scope filter, and a [from] that is not a date. *)
Definition undated_request : Request :=
  {| query_params := {[ "from" := "the day before yesterday, roughly";
                        "query-id" := "q1" ]};
     user := "admin" |}.

(** The dictionary [export] enqueues for [poll_request]. *)
Definition enqueued_filters : dict :=
  [ ("organization", PyNone); ("project", PyNone); ("task", PyStr "5");
    ("job", PyNone); ("user", PyNone);
    ("from", PyFloat 1672531200); ("to", PyFloat 1675209600) ].

Definition job_in (status : JobStatus) : Job :=
  {| job_status := status;
     job_args := (enqueued_filters, artifact, DEFAULT_CACHE_TTL);
     job_result_ttl := DEFAULT_CACHE_TTL;
     job_failure_ttl := DEFAULT_CACHE_TTL |}.

Definition queue_with (j : Job) : rq_state :=
  {| rq_jobs := {[ job_id := j ]}; rq_log := [] |}.

Definition empty_queue : rq_state := {| rq_jobs := ∅; rq_log := [] |}.

Definition traceback : string :=
  "clickhouse_connect.driver.exceptions.OperationalError".

(** A worker whose heap holds the filters at address 0. *)
Definition worker : worker_state :=
  {| heap := λ a, if Nat.eqb a 0 then enqueued_filters else [];
     files := ∅; clickhouse_calls := []; cleaning_jobs := [];
     slogger := [] |}.

(** A ClickHouse that cannot be reached, and one that answers. *)
Definition clickhouse_down (query : string) (parameters : dict)
    : option query_result := None.
Definition clickhouse_up (query : string) (parameters : dict)
    : option query_result :=
  Some {| column_names := ["timestamp"; "task_id"];
          result_rows := [["2023-01-15 10:00:00"; "5"]] |}.
Definition writable (p : string) : bool := true.

End Scenario.

(** ** Sequences of polls *)

Definition is_enqueue (c : rq_call) : bool :=
  match c with EnqueueCall _ => true | _ => false end.

(** How many times a production job was enqueued, by the queue's log. *)
Definition enqueue_count (calls : list rq_call) : nat :=
  length (List.filter is_enqueue calls).

(** A record that is neither finished nor failed. *)
Definition pending (j : Job) : Prop :=
  is_finished j = false ∧ is_failed j = false.

(** The caller sent a query id of their own. *)
Definition supplies_query_id (request : Request) (q : string) : Prop :=
  query_params request !! "query-id" = Some q ∧ q ≠ "".

(** The same request sent once per element of [envs], each time with the
    fresh uuid and the clock reading of that moment: the answers, first to
    last, and the queue they leave. *)
Fixpoint polls (parse_timestamp : string → option float)
    (path_exists : string → bool) (TMP_FILES_ROOT : string)
    (envs : list (string * string)) (request : Request) (st : rq_state)
    : list (res response) * rq_state :=
  match envs with
  | [] => ([], st)
  | (uuid4, now) :: envs =>
      let '(r, st') :=
        export parse_timestamp uuid4 now path_exists TMP_FILES_ROOT
          request st in
      let '(rs, st'') :=
        polls parse_timestamp path_exists TMP_FILES_ROOT envs request st' in
      (r :: rs, st'')
  end.

(** What happens to the job records between two requests: a worker taking
    up or finishing jobs, other requests. *)
Definition interference : Type := gmap string Job → gmap string Job.

(** An interference that leaves the record of [id] neither finished nor
    failed. *)
Definition keeps_pending (id : string) (g : interference) : Prop :=
  ∀ m job, m !! id = Some job → pending job →
           ∃ job', g m !! id = Some job' ∧ pending job'.

(** The same request sent once per element of [steps], the job records
    being changed by the step's interference before each request. *)
Fixpoint polls_amid (parse_timestamp : string → option float)
    (path_exists : string → bool) (TMP_FILES_ROOT : string)
    (steps : list (interference * (string * string)))
    (request : Request) (st : rq_state)
    : list (res response) * rq_state :=
  match steps with
  | [] => ([], st)
  | (g, (uuid4, now)) :: steps =>
      let '(r, st') :=
        export parse_timestamp uuid4 now path_exists TMP_FILES_ROOT request
          {| rq_jobs := g (rq_jobs st); rq_log := rq_log st |} in
      let '(rs, st'') :=
        polls_amid parse_timestamp path_exists TMP_FILES_ROOT
          steps request st' in
      (r :: rs, st'')
  end.

(** The three messages of the validation errors. *)
Definition msg_range : string := "'from' must be before than 'to'".
Definition msg_scope : string :=
  "One of 'org', 'project', 'task', 'job', 'user' parameter must be specified".
Definition msg_action : string :=
  "Unexpected action specified for the request".

(** The five scope filters of a request, under the names they are enqueued
    with. *)
Definition scope_filters (request : Request) : dict :=
  [ ("organization", param request "org");
    ("project", param request "project");
    ("task", param request "task");
    ("job", param request "job");
    ("user", param request "user") ].

Module Scenario2.
Import Scenario.

(** A query id that is an absolute path. *)
Definition absolute_request : Request :=
  {| query_params := {[ "task" := "5"; "query-id" := "/srv/data/out" ]};
     user := "admin" |}.

(** A request that fails all three checks at once. *)
Definition hopeless_request : Request :=
  {| query_params :=
       {[ "from" := "2023-02-01T00:00:00Z"; "to" := "2023-01-01T00:00:00Z";
          "action" := "delete" ]};
     user := "admin" |}.

(** Another user's record, under another JobId. *)
Definition other_job_id : string := "export:csv-logs-q7-by-user3".
Definition shared_queue : rq_state :=
  {| rq_jobs := {[ job_id := job_in (FINISHED artifact);
                   other_job_id := job_in STARTED ]};
     rq_log := [] |}.

(** A worker whose dictionary lacks [from], and one whose dictionary lacks
    [to]. *)
Definition worker_with (d : dict) : worker_state :=
  {| heap := λ a, if Nat.eqb a 0 then d else [("task", PyStr "9")];
     files := ∅; clickhouse_calls := []; cleaning_jobs := [];
     slogger := [] |}.
Definition no_from : dict := [("task", PyStr "5"); ("to", PyNone)].
Definition no_to : dict := [("task", PyStr "5"); ("from", PyNone)].

(** The events of the last day before the epoch: [to] is the epoch. *)
Definition epoch_to_request : Request :=
  {| query_params :=
       {[ "task" := "5"; "from" := "1969-12-31T00:00:00Z";
          "to" := "1970-01-01T00:00:00Z"; "query-id" := "q1" ]};
     user := "admin" |}.

(** The dictionary [export] enqueues for it. *)
Definition epoch_to_filters : dict :=
  [ ("organization", PyNone); ("project", PyNone); ("task", PyStr "5");
    ("job", PyNone); ("user", PyNone);
    ("from", PyFloat (-86400)); ("to", PyFloat 0) ].

(** A worker takes the job of [q1] up. *)
Definition worker_starts : interference :=
  λ m, <[job_id := job_in STARTED]> m.

(** Somebody else's request is enqueued. *)
Definition other_submission : interference :=
  λ m, <[other_job_id := job_in QUEUED]> m.

End Scenario2.

(** ** Facts about dictionaries *)

Module PyDictFacts.
Import PyDict.

Lemma get_Some_key (k : string) (d : dict) :
  has_key k d ↔ ∃ v, get k d = Some v.
Proof.
  unfold has_key, keys. induction d as [|[k' v'] d IH]; cbn.
  - split; [by intros ?%elem_of_nil|by intros [? ?]].
  - rewrite elem_of_cons, IH. destruct (String.eqb_spec k' k) as [->|Hne].
    + split; eauto.
    + split; [intros [?|?]; [congruence|done]|eauto].
Qed.

Lemma keys_remove (k k' : string) (d : dict) :
  k' ∈ keys (remove k d) → k' ∈ keys d.
Proof.
  unfold keys. induction d as [|[k0 v0] d IH]; cbn; [done|].
  destruct (String.eqb k0 k); cbn; rewrite !elem_of_cons; [by right|].
  intros [?|?]; [by left|right; by apply IH].
Qed.

Lemma wf_remove (k : string) (d : dict) : wf d → wf (remove k d).
Proof.
  unfold wf, keys. induction d as [|[k0 v0] d IH]; cbn; [done|].
  rewrite NoDup_cons. intros [Hk Hd].
  destruct (String.eqb k0 k); cbn; [done|].
  apply NoDup_cons. split; [|by apply IH].
  intros ?%keys_remove. by apply Hk.
Qed.

Lemma remove_key_gone (k : string) (d : dict) : wf d → ¬ has_key k (remove k d).
Proof.
  unfold wf, has_key, keys. induction d as [|[k0 v0] d IH]; cbn.
  - by intros _ ?%elem_of_nil.
  - rewrite NoDup_cons. intros [Hk Hd].
    destruct (String.eqb_spec k0 k) as [->|Hne]; cbn; [done|].
    rewrite elem_of_cons. intros [?|?]; [congruence|by apply IH].
Qed.

Lemma get_remove_ne (k k' : string) (d : dict) :
  k ≠ k' → get k' (remove k d) = get k' d.
Proof.
  intros Hne. induction d as [|[k0 v0] d IH]; cbn; [done|].
  destruct (String.eqb_spec k0 k) as [->|Hk]; cbn.
  - by destruct (String.eqb_spec k k').
  - by rewrite IH.
Qed.

Lemma set_fresh (k : string) (v : pyval) (d : dict) :
  k ∉ keys d → set k v d = d ++ [(k, v)].
Proof.
  unfold keys. induction d as [|[k0 v0] d IH]; cbn; [done|].
  rewrite not_elem_of_cons. intros [Hne Hk].
  destruct (String.eqb_spec k0 k) as [->|_]; [done|]. by rewrite IH.
Qed.

Lemma keys_populated (k : string) (d : dict) :
  k ∈ keys (populated d) → k ∈ keys d.
Proof.
  unfold keys, populated. induction d as [|[k0 v0] d IH]; cbn; [done|].
  destruct (truthy v0); cbn; rewrite !elem_of_cons; [|by right; apply IH].
  intros [?|?]; [by left|right; by apply IH].
Qed.

End PyDictFacts.

(** ** Facts about [_create_csv] *)

Section WorkerFacts.
Import PyDict PyDictFacts.

Variable clickhouse : string → dict → option query_result.
Variable can_open : string → bool.
Variable ctime_now : float.

Abbreviation create_csv := (_create_csv clickhouse can_open ctime_now).
Abbreviation produce' := (produce clickhouse can_open ctime_now).

Lemma bind_ok {S A B} (m : ST S A) (k : A → ST S B) (st st' : S) (a : A) :
  m st = (Ok a, st') → (m ≫= k) st = k a st'.
Proof. unfold mbind, ST_bind. by intros ->. Qed.

Lemma dict_pop_ok (d : nat) (k : string) (v : pyval) (st : worker_state) :
  get k (heap st d) = Some v → dict_pop d k st = (Ok v, popped d k st).
Proof. intros H. unfold dict_pop, pop. by rewrite H. Qed.

Lemma heap_popped (d : nat) (k : string) (st : worker_state) :
  heap (popped d k st) d = remove k (heap st d).
Proof. unfold popped. cbn. apply fn_lookup_insert. Qed.

(** The loop appends, in order, one equality and one parameter per populated
    entry. *)
Lemma scalar_conditions_spec (items : dict) (conditions : list string)
    (parameters : dict) :
  NoDup (keys parameters ++ keys items) →
  scalar_conditions items conditions parameters =
  (conditions ++ (equality_predicate <$> keys (populated items)),
   parameters ++ populated items).
Proof.
  revert conditions parameters.
  induction items as [|[k v] items IH]; intros conditions parameters Hnd; cbn.
  - by rewrite !app_nil_r.
  - assert (k ∉ keys parameters) as Hk.
    { apply NoDup_app in Hnd as (_ & Hd & _). intros Hin.
      apply (Hd k Hin). unfold keys. cbn. apply list_elem_of_here. }
    destruct (truthy v); cbn.
    + rewrite IH.
      * rewrite (set_fresh _ _ _ Hk). unfold equality_predicate.
        by rewrite <- !app_assoc.
      * rewrite (set_fresh _ _ _ Hk). unfold keys in *.
        rewrite fmap_app. cbn. rewrite <- app_assoc. exact Hnd.
    + apply IH. unfold keys in *. cbn in Hnd.
      apply NoDup_app in Hnd as (H1 & H2 & H3%NoDup_cons).
      apply NoDup_app. split_and!; [done| |by destruct H3].
      intros x Hx Hin. apply (H2 x Hx). by right.
Qed.

Lemma time_conditions_spec (scalars : dict) (f t : pyval) :
  "from" ∉ keys scalars → "to" ∉ keys scalars →
  time_condition "to" "timestamp <= {to:DateTime64}" t
    (time_condition "from" "timestamp >= {from:DateTime64}" f
       (equality_predicate <$> keys (populated scalars), populated scalars)) =
  (predicates (keys (populated scalars)) (truthy f) (truthy t),
   bound_parameters scalars f t).
Proof.
  intros Hfrom Hto. unfold time_condition, predicates, bound_parameters.
  assert ("from" ∉ keys (populated scalars)) as Hf.
  { intros ?%keys_populated. by apply Hfrom. }
  assert ("to" ∉ keys (populated scalars)) as Ht.
  { intros ?%keys_populated. by apply Hto. }
  destruct (truthy f), (truthy t); cbn; rewrite ?app_nil_r.
  - rewrite (set_fresh "from") by done. rewrite set_fresh.
    + by rewrite <- !app_assoc.
    + unfold keys in *. rewrite fmap_app, elem_of_app. cbn.
      rewrite list_elem_of_singleton. by intros [?|?].
  - by rewrite (set_fresh "from") by done.
  - by rewrite (set_fresh "to") by done.
  - done.
Qed.

(** With both keys in the dictionary, a call pops them and goes on to
    [produce] with the query and the parameters built from what is left. *)
Lemma create_csv_run (d : nat) (output_filename : string) (cache_ttl : Z)
    (st : worker_state) (f t : pyval) :
  wf (heap st d) →
  get "from" (heap st d) = Some f →
  get "to" (heap st d) = Some t →
  let scalars := remove "to" (remove "from" (heap st d)) in
  create_csv d output_filename cache_ttl st =
  try_log_reraise
    (produce' output_filename cache_ttl
       (select_events
          (predicates (keys (populated scalars)) (truthy f) (truthy t)))
       (bound_parameters scalars f t))
    (popped d "to" (popped d "from" st)).
Proof.
  intros Hwf Hf Ht scalars.
  assert (get "to" (heap (popped d "from" st) d) = Some t) as Ht'.
  { by rewrite heap_popped, get_remove_ne. }
  assert (heap (popped d "to" (popped d "from" st)) d = scalars) as Hs.
  { by rewrite !heap_popped. }
  assert (wf scalars) as Hws by (by do 2 apply wf_remove).
  assert ("to" ∉ keys scalars) as Hto.
  { apply remove_key_gone. exact (wf_remove _ _ Hwf). }
  assert ("from" ∉ keys scalars) as Hfrom.
  { intros H%keys_remove. exact (remove_key_gone _ _ Hwf H). }
  unfold _create_csv, try_log_reraise.
  rewrite (bind_ok _ _ _ _ _ (dict_pop_ok d "from" f st Hf)).
  rewrite (bind_ok _ _ _ _ _ (dict_pop_ok d "to" t _ Ht')).
  erewrite bind_ok by reflexivity. rewrite Hs.
  rewrite scalar_conditions_spec by exact Hws.
  cbn [app]. rewrite time_conditions_spec by done.
  unfold produce, select_events.
  by destruct (predicates _ _ _).
Qed.

(** Whatever happens from the query on, the query was issued, once, and the
    heap is not touched again. *)
Lemma produce_calls (output_filename : string) (cache_ttl : Z)
    (query : string) (parameters : dict) (st : worker_state) :
  clickhouse_calls
    (try_log_reraise
       (produce' output_filename cache_ttl query parameters) st).2 =
  clickhouse_calls st ++ [(query, parameters)]
  ∧ heap (try_log_reraise
            (produce' output_filename cache_ttl query parameters) st).2 =
    heap st.
Proof.
  unfold try_log_reraise, produce, client_query, write_csv, getctime.
  unfold enqueue_in, log, mbind, ST_bind, mret, ST_ret. cbn.
  destruct (clickhouse query parameters); cbn; [|done].
  destruct (can_open output_filename); cbn; [|done].
  rewrite lookup_insert_eq. by cbn.
Qed.

(** *** Properties of [_create_csv] *)

(** The query in closed form. For every dictionary of filters (with its
    [from] and [to] entries), the query handed to ClickHouse is
    [SELECT * FROM events], followed, when there is a predicate, by [ WHERE ]
    and the predicates joined by [ AND ]: one [name = {name:UInt64}] per
    scalar filter whose value is true, in the dictionary's order, then
    [timestamp >= {from:DateTime64}] when the value of [from] is true and
    [timestamp <= {to:DateTime64}] when the value of [to] is. The values go
    into the parameters, each under its name, and the query string is built
    from the names alone. Building the query never fails, and with no true
    value the query is the bare select. A bound whose timestamp is 0.0 is not
    a true value: it gets no predicate. *)
Theorem query_is_parameterised (d : nat) (output_filename : string)
    (cache_ttl : Z) (st : worker_state) (f t : pyval) :
  wf (heap st d) →
  get "from" (heap st d) = Some f →
  get "to" (heap st d) = Some t →
  let scalars := remove "to" (remove "from" (heap st d)) in
  let st' := (create_csv d output_filename cache_ttl st).2 in
  clickhouse_calls st' =
    clickhouse_calls st ++
    [(select_events
        (predicates (keys (populated scalars)) (truthy f) (truthy t)),
      bound_parameters scalars f t)]
  ∧ (populated scalars = [] → truthy f = false → truthy t = false →
     clickhouse_calls st' =
     clickhouse_calls st ++ [("SELECT * FROM events", [])]).
Proof.
  intros Hwf Hf Ht scalars st'. subst st'.
  rewrite (create_csv_run d output_filename cache_ttl st f t Hwf Hf Ht).
  fold scalars.
  destruct (produce_calls output_filename cache_ttl
    (select_events
       (predicates (keys (populated scalars)) (truthy f) (truthy t)))
    (bound_parameters scalars f t)
    (popped d "to" (popped d "from" st))) as [Hc _].
  split; [exact Hc|].
  intros Hp Hff Htf. rewrite Hc.
  unfold bound_parameters. by rewrite Hp, Hff, Htf.
Qed.

(** C9: a call of [_create_csv] on a dictionary that has the [from] and [to]
    keys removes both from that very dictionary, whether the call then
    returns or raises (ClickHouse or the file system failing): afterwards the
    caller's dictionary has neither key and is not what it was. *)
Theorem create_csv_pops_time_filter (d : nat) (output_filename : string)
    (cache_ttl : Z) (st : worker_state) :
  wf (heap st d) →
  has_key "from" (heap st d) →
  has_key "to" (heap st d) →
  let st' := (create_csv d output_filename cache_ttl st).2 in
  heap st' d = remove "to" (remove "from" (heap st d))
  ∧ ¬ has_key "from" (heap st' d)
  ∧ ¬ has_key "to" (heap st' d)
  ∧ heap st' d ≠ heap st d.
Proof.
  intros Hwf Hfrom Hto st'.
  destruct (proj1 (get_Some_key _ _) Hfrom) as [f Hf].
  destruct (proj1 (get_Some_key _ _) Hto) as [t Ht].
  assert (heap st' d = remove "to" (remove "from" (heap st d))) as Hh.
  { subst st'.
    rewrite (create_csv_run d output_filename cache_ttl st f t Hwf Hf Ht).
    destruct (produce_calls output_filename cache_ttl
      (select_events
         (predicates (keys (populated (remove "to" (remove "from" (heap st d)))))
            (truthy f) (truthy t)))
      (bound_parameters (remove "to" (remove "from" (heap st d))) f t)
      (popped d "to" (popped d "from" st))) as [_ Hheap].
    rewrite Hheap. by rewrite !heap_popped. }
  assert (¬ has_key "from" (heap st' d)) as Hnf.
  { rewrite Hh. intros H%keys_remove. exact (remove_key_gone _ _ Hwf H). }
  split_and!; [done|done| |].
  - rewrite Hh. apply remove_key_gone. exact (wf_remove _ _ Hwf).
  - intros Heq. apply Hnf. by rewrite Heq.
Qed.

End WorkerFacts.

(** ** Facts about [export] *)

Section ExportFacts.

Variable parse_timestamp : string → option float.
Variable uuid4 : string.
Variable now : string.
Variable path_exists : string → bool.
Variable TMP_FILES_ROOT : string.

Abbreviation export := (export parse_timestamp uuid4 now path_exists TMP_FILES_ROOT).
Abbreviation query_id_of := (query_id_of uuid4).
Abbreviation job_id_of := (job_id_of uuid4).
Abbreviation query_id_body := (query_id_body uuid4).
Abbreviation unparseable := (unparseable parse_timestamp).
Abbreviation well_dated := (well_dated parse_timestamp).
Abbreviation from_later_than_to := (from_later_than_to parse_timestamp).
Abbreviation invalid := (invalid parse_timestamp).
Abbreviation valid := (valid parse_timestamp).
Abbreviation calls_of :=
  (calls_of parse_timestamp uuid4 now path_exists TMP_FILES_ROOT).
Abbreviation parsed := (parsed parse_timestamp).
Abbreviation checks := (checks parse_timestamp).
Abbreviation serve := (serve uuid4 now path_exists TMP_FILES_ROOT).
Abbreviation queued_job := (queued_job uuid4 TMP_FILES_ROOT).
Abbreviation accepted := (accepted uuid4).

Lemma export_phases (request : Request) (st : rq_state) :
  export request st =
  match checks request with
  | Raise e => (Raise e, st)
  | Ok qp => serve request qp st
  end.
Proof.
  unfold export, checks, parsed, filters, scoped, serve.
  unfold job_id_of, query_id_of, query_id_body, param.
  generalize (of_get (query_params request !! "from")) as f0.
  generalize (of_get (query_params request !! "to")) as t0.
  generalize (action_unexpected (query_params request !! "action")) as bad.
  intros bad t0 f0.
  unfold parse_param, from_after_to, any_scope, raise_if, raise, lift.
  unfold mbind, ST_bind, mret, ST_ret, PyDict.getitem.
  destruct f0 as [|s1|x]; cbn;
    try destruct (bool_decide (s1 = "")) eqn:E1; cbn;
    try destruct (parse_timestamp s1) as [x|]; cbn;
    try destruct (PrimFloat.eqb x 0) eqn:Hx; cbn; try reflexivity.
  all: destruct t0 as [|s2|y]; cbn;
    try destruct (bool_decide (s2 = "")) eqn:E2; cbn;
    try destruct (parse_timestamp s2) as [y|]; cbn;
    try destruct (PrimFloat.eqb y 0) eqn:Hy; cbn; try reflexivity.
  all: rewrite ?E1, ?E2, ?Hx, ?Hy; cbn.
  all: try (destruct (PrimFloat.ltb _ _); cbn; try reflexivity).
  all: match goal with
       | |- context [negb (?a || ?b)] => destruct (a || b); cbn
       end; try reflexivity.
  all: destruct bad; reflexivity.
Qed.

(** *** What [checks] decides *)

(** How a [from]/[to] parameter comes out of lines 98-102. *)
Lemma parsed_param (request : Request) (k : string) :
  match query_params request !! k with
  | None => parsed (param request k) = Ok PyNone
  | Some s =>
      if bool_decide (s = "") then parsed (param request k) = Ok (PyStr "")
      else match parse_timestamp s with
           | Some f => parsed (param request k) = Ok (PyFloat f)
           | None => parsed (param request k) = Raise ParserError
           end
  end.
Proof.
  unfold parsed, param.
  destruct (query_params request !! k) as [s|]; [|reflexivity].
  cbn. case_bool_decide as Hs; cbn; [by subst|].
  by destruct (parse_timestamp s).
Qed.

Lemma checks_unparseable (request : Request) :
  unparseable request "from" ∨ unparseable request "to" →
  checks request = Raise ParserError.
Proof.
  unfold checks.
  intros [(s & Hs & Hne & Hp)|(s & Hs & Hne & Hp)].
  - pose proof (parsed_param request "from") as Hf.
    rewrite Hs, bool_decide_eq_false_2, Hp in Hf by done. by rewrite Hf.
  - pose proof (parsed_param request "to") as Ht.
    rewrite Hs, bool_decide_eq_false_2, Hp in Ht by done. rewrite Ht.
    pose proof (parsed_param request "from") as Hf.
    destruct (query_params request !! "from") as [s1|]; [|by rewrite Hf].
    case_bool_decide; [by rewrite Hf|].
    destruct (parse_timestamp s1); by rewrite Hf.
Qed.

Lemma scoped_false (request : Request) :
  scoped request = false ↔ no_scope_filter request.
Proof.
  unfold scoped, no_scope_filter. cbn. rewrite !orb_false_iff. split.
  - intros (? & ? & ? & ? & ? & _) k Hk.
    repeat (apply elem_of_cons in Hk as [->|Hk]; [done|]).
    by apply elem_of_nil in Hk.
  - intros H. repeat split; try apply H; by repeat constructor.
Qed.

Lemma action_unexpected_true (request : Request) :
  action_unexpected (query_params request !! "action") = true ↔
  unsupported_action request.
Proof.
  unfold action_unexpected, unsupported_action.
  destruct (query_params request !! "action") as [a|]; split.
  - rewrite negb_true_iff, bool_decide_eq_false. eauto.
  - intros (a' & [= <-] & Ha). by rewrite negb_true_iff, bool_decide_eq_false.
  - done.
  - by intros (? & ? & ?).
Qed.

Lemma checks_verdict (request : Request) (f t : pyval) :
  parsed (param request "from") = Ok f →
  parsed (param request "to") = Ok t →
  checks request = verdict request f t.
Proof. unfold checks, verdict. by intros -> ->. Qed.

(** The code's range check fires only on a real conflict ... *)
Lemma range_check_sound (request : Request) (f t : pyval) :
  parsed (param request "from") = Ok f →
  parsed (param request "to") = Ok t →
  truthy f && truthy t && later f t = true →
  from_later_than_to request.
Proof.
  intros Hf Ht. rewrite !andb_true_iff. intros [[Tf Tt] Hl].
  pose proof (parsed_param request "from") as Pf.
  pose proof (parsed_param request "to") as Pt.
  unfold from_later_than_to.
  destruct (query_params request !! "from") as [s1|];
    [|rewrite Pf in Hf; by simplify_eq].
  destruct (query_params request !! "to") as [s2|];
    [|rewrite Pt in Ht; by simplify_eq].
  destruct (bool_decide (s1 = "")) eqn:E1;
    [rewrite Pf in Hf; by simplify_eq|].
  destruct (bool_decide (s2 = "")) eqn:E2;
    [rewrite Pt in Ht; by simplify_eq|].
  apply bool_decide_eq_false in E1, E2.
  destruct (parse_timestamp s1) as [x|] eqn:P1;
    [|rewrite Pf in Hf; by simplify_eq].
  destruct (parse_timestamp s2) as [y|] eqn:P2;
    [|rewrite Pt in Ht; by simplify_eq].
  rewrite Pf in Hf. rewrite Pt in Ht. simplify_eq.
  exists s1, s2, x, y. eauto 10.
Qed.

(** ... and, when the timestamps are not zero, on every conflict. *)
Lemma range_check_complete (request : Request) (f t : pyval) :
  well_dated request "from" → well_dated request "to" →
  parsed (param request "from") = Ok f →
  parsed (param request "to") = Ok t →
  from_later_than_to request →
  truthy f && truthy t && later f t = true.
Proof.
  unfold well_dated.
  intros Wf Wt Hf Ht (s1 & s2 & x & y & L1 & N1 & L2 & N2 & P1 & P2 & Hl).
  pose proof (parsed_param request "from") as Pf.
  pose proof (parsed_param request "to") as Pt.
  rewrite L1, bool_decide_eq_false_2, P1 in Pf by done.
  rewrite L2, bool_decide_eq_false_2, P2 in Pt by done.
  rewrite L1 in Wf. rewrite L2 in Wt.
  destruct Wf as [?|(x' & ? & Zx)]; [done|].
  destruct Wt as [?|(y' & ? & Zy)]; [done|].
  simplify_eq. rewrite Pf in Hf. rewrite Pt in Ht. simplify_eq.
  cbn. by rewrite Zx, Zy, Hl.
Qed.

Lemma well_dated_parsed (request : Request) (k : string) :
  well_dated request k → ∃ v, parsed (param request k) = Ok v.
Proof.
  unfold well_dated. intros W.
  pose proof (parsed_param request k) as P.
  destruct (query_params request !! k) as [s|]; [|eauto].
  case_bool_decide; [eauto|].
  destruct W as [?|(f & Hp & _)]; [done|]. rewrite Hp in P. eauto.
Qed.

Lemma parseable_parsed (request : Request) (k : string) :
  ¬ unparseable request k → ∃ v, parsed (param request k) = Ok v.
Proof.
  unfold unparseable. intros W.
  pose proof (parsed_param request k) as P.
  destruct (query_params request !! k) as [s|]; [|eauto].
  case_bool_decide; [eauto|].
  destruct (parse_timestamp s) eqn:Hp; [eauto|].
  destruct W. eauto.
Qed.

Lemma verdict_validation_error (request : Request) (f t : pyval) :
  (∃ msg, verdict request f t = Raise (ValidationError msg)) ↔
  truthy f && truthy t && later f t = true ∨ scoped request = false ∨
  action_unexpected (query_params request !! "action") = true.
Proof.
  unfold verdict.
  destruct (truthy f && truthy t && later f t); [split; eauto|].
  destruct (scoped request); cbn; [|split; eauto].
  destruct (action_unexpected _); [split; eauto|].
  split; [by intros (? & ?)|]. by intros [?|[?|?]].
Qed.

(** A valid request passes, and what is enqueued for it is the dictionary
    of lines 88-102. *)
Lemma valid_checks (request : Request) :
  valid request → ∃ f t, checks request = Ok (filters request f t).
Proof.
  intros (Uf & Ut & Hinv).
  destruct (parseable_parsed request "from" Uf) as [f Hf].
  destruct (parseable_parsed request "to" Ut) as [t Ht].
  exists f, t. rewrite (checks_verdict request f t Hf Ht).
  unfold verdict, invalid in *.
  destruct (truthy f && truthy t && later f t) eqn:Hr.
  { destruct Hinv. right; left. by eapply range_check_sound. }
  destruct (scoped request) eqn:Hs; cbn.
  2: { destruct Hinv. left. by apply scoped_false. }
  destruct (action_unexpected _) eqn:Ha; [|done].
  destruct Hinv. right; right. by apply action_unexpected_true.
Qed.

(** *** What [serve] does, by the state of the job record *)

Ltac run_serve H :=
  unfold serve, fetch_job, poll, submit, enqueue_call, job_delete;
  unfold mbind, ST_bind, mret, ST_ret; cbn; rewrite ?H; cbn.

Lemma serve_absent request qp st :
  rq_jobs st !! job_id_of request = None →
  serve request qp st =
  (Ok (accepted request),
   {| rq_jobs := <[job_id_of request := queued_job request qp]> (rq_jobs st);
      rq_log := rq_log st ++
        [FetchJob (job_id_of request); EnqueueCall (job_id_of request)] |}).
Proof. intros H. run_serve H. by rewrite <- app_assoc. Qed.

Lemma serve_finished_missing request qp st job p :
  rq_jobs st !! job_id_of request = Some job →
  job_status job = FINISHED p →
  path_exists p = false →
  serve request qp st =
  (Ok (accepted request),
   {| rq_jobs := <[job_id_of request := queued_job request qp]> (rq_jobs st);
      rq_log := rq_log st ++
        [FetchJob (job_id_of request); EnqueueCall (job_id_of request)] |}).
Proof.
  intros H Hs Hp. run_serve H. rewrite Hs, Hp, andb_false_r. cbn.
  by rewrite <- app_assoc.
Qed.

Lemma serve_finished_download request qp st job p :
  rq_jobs st !! job_id_of request = Some job →
  job_status job = FINISHED p →
  path_exists p = true →
  query_params request !! "action" = Some "download" →
  serve request qp st =
  (Ok (SendFile p true
         (str_or (query_params request !! "filename")
                 ("logs_" +:+ now +:+ ".csv"))),
   {| rq_jobs := delete (job_id_of request) (rq_jobs st);
      rq_log := rq_log st ++
        [FetchJob (job_id_of request); DeleteJob (job_id_of request)] |}).
Proof.
  intros H Hs Hp Ha. run_serve H. rewrite Hs, Hp, Ha.
  rewrite bool_decide_eq_true_2 by done. cbn. by rewrite <- app_assoc.
Qed.

Lemma serve_finished_ready request qp st job p :
  rq_jobs st !! job_id_of request = Some job →
  job_status job = FINISHED p →
  path_exists p = true →
  query_params request !! "action" ≠ Some "download" →
  serve request qp st =
  (Ok (Response None HTTP_201_CREATED),
   {| rq_jobs := rq_jobs st;
      rq_log := rq_log st ++ [FetchJob (job_id_of request)] |}).
Proof.
  intros H Hs Hp Ha. run_serve H. rewrite Hs, Hp.
  by rewrite bool_decide_eq_false_2 by done.
Qed.

Lemma serve_failed request qp st job exc_info :
  rq_jobs st !! job_id_of request = Some job →
  job_status job = FAILED exc_info →
  serve request qp st =
  (Ok (Response (Some (BodyStr (py_str exc_info)))
         HTTP_500_INTERNAL_SERVER_ERROR),
   {| rq_jobs := delete (job_id_of request) (rq_jobs st);
      rq_log := rq_log st ++
        [FetchJob (job_id_of request); DeleteJob (job_id_of request)] |}).
Proof.
  intros H Hs. run_serve H. rewrite Hs. cbn. by rewrite <- app_assoc.
Qed.

Lemma serve_pending request qp st job :
  rq_jobs st !! job_id_of request = Some job →
  is_finished job = false →
  is_failed job = false →
  serve request qp st =
  (Ok (accepted request),
   {| rq_jobs := rq_jobs st;
      rq_log := rq_log st ++ [FetchJob (job_id_of request)] |}).
Proof.
  intros H Hfin Hfail. run_serve H.
  unfold is_finished, is_failed in *.
  by destruct (job_status job).
Qed.

(** Every run of [serve] is one of six. *)
Lemma serve_cases request qp st :
  let id := job_id_of request in
  let resubmitted :=
    (Ok (accepted request),
     {| rq_jobs := <[id := queued_job request qp]> (rq_jobs st);
        rq_log := rq_log st ++ [FetchJob id; EnqueueCall id] |}) in
  (rq_jobs st !! id = None ∧ serve request qp st = resubmitted)
  ∨ (∃ job p, rq_jobs st !! id = Some job ∧ job_status job = FINISHED p ∧
       path_exists p = false ∧ serve request qp st = resubmitted)
  ∨ (∃ job p name, rq_jobs st !! id = Some job ∧ job_status job = FINISHED p ∧
       path_exists p = true ∧
       serve request qp st =
       (Ok (SendFile p true name),
        {| rq_jobs := delete id (rq_jobs st);
           rq_log := rq_log st ++ [FetchJob id; DeleteJob id] |}))
  ∨ (∃ job p, rq_jobs st !! id = Some job ∧ job_status job = FINISHED p ∧
       path_exists p = true ∧
       serve request qp st =
       (Ok (Response None HTTP_201_CREATED),
        {| rq_jobs := rq_jobs st; rq_log := rq_log st ++ [FetchJob id] |}))
  ∨ (∃ job exc_info, rq_jobs st !! id = Some job ∧
       job_status job = FAILED exc_info ∧
       serve request qp st =
       (Ok (Response (Some (BodyStr (py_str exc_info)))
              HTTP_500_INTERNAL_SERVER_ERROR),
        {| rq_jobs := delete id (rq_jobs st);
           rq_log := rq_log st ++ [FetchJob id; DeleteJob id] |}))
  ∨ (∃ job, rq_jobs st !! id = Some job ∧ is_finished job = false ∧
       is_failed job = false ∧
       serve request qp st =
       (Ok (accepted request),
        {| rq_jobs := rq_jobs st; rq_log := rq_log st ++ [FetchJob id] |})).
Proof.
  intros id resubmitted. subst resubmitted.
  destruct (rq_jobs st !! id) as [job|] eqn:Hj.
  2: { left. split; [done|]. by apply serve_absent. }
  right. destruct (job_status job) as [| | | | | |p|exc_info] eqn:Hs.
  7: { destruct (path_exists p) eqn:Hp.
       - destruct (decide (query_params request !! "action" = Some "download")).
         + right; left. do 3 eexists. repeat split; try done.
           by eapply serve_finished_download.
         + right; right; left. do 2 eexists. repeat split; try done.
           by eapply serve_finished_ready.
       - left. do 2 eexists. repeat split; try done.
         by eapply serve_finished_missing. }
  7: { do 3 right; left. do 2 eexists. repeat split; try done.
       by eapply serve_failed. }
  all: do 4 right; exists job; unfold is_finished, is_failed; rewrite Hs;
    repeat split; try done;
    apply (serve_pending _ _ _ job); [done|unfold is_finished|unfold is_failed];
    by rewrite Hs.
Qed.

Lemma export_valid request st :
  valid request →
  ∃ f t, export request st = serve request (filters request f t) st.
Proof.
  intros (f & t & H)%valid_checks. exists f, t.
  by rewrite export_phases, H.
Qed.

(** An exception leaves the queue as it was: nothing fetched, nothing
    deleted, nothing enqueued. *)
Lemma serve_returns request qp st : ∃ r, (serve request qp st).1 = Ok r.
Proof.
  destruct (serve_cases request qp st)
    as [[_ E]|[(?&?&_&_&_&E)|[(?&?&?&_&_&_&E)|[(?&?&_&_&_&E)|
        [(?&?&_&_&E)|(?&_&_&_&E)]]]]];
    rewrite E; eauto.
Qed.

(** An exception leaves the queue as it was: nothing fetched, nothing
    deleted, nothing enqueued. *)
Lemma export_raise_untouched request st e :
  (export request st).1 = Raise e → export request st = (Raise e, st).
Proof.
  rewrite export_phases. destruct (checks request) as [qp|e'].
  - intros H. destruct (serve_returns request qp st) as [r E]. congruence.
  - cbn. by intros [= ->].
Qed.

End ExportFacts.

(** ** Properties of [export] *)

Section ExportProperties.

Variable parse_timestamp : string → option float.
Variable uuid4 : string.
Variable now : string.
Variable path_exists : string → bool.
Variable TMP_FILES_ROOT : string.

Abbreviation export' :=
  (export parse_timestamp uuid4 now path_exists TMP_FILES_ROOT).
Abbreviation job_id' := (job_id_of uuid4).
Abbreviation valid' := (valid parse_timestamp).
Abbreviation serve' := (serve uuid4 now path_exists TMP_FILES_ROOT).
Abbreviation accepted' := (accepted uuid4).
Abbreviation queued_job' := (queued_job uuid4 TMP_FILES_ROOT).

(** C1, as amended: a run of [export] enqueues a production job only under
    the request's own JobId, and only when the queue has no record for that
    JobId or has a finished record whose artifact file is gone. So while the
    JobId has a record that is queued or running, failed, or finished with
    its file on disk, nothing is enqueued. *)
Theorem enqueues_only_when_absent_or_evicted (request : Request) (st : rq_state) :
  ∃ calls,
    calls_of parse_timestamp uuid4 now path_exists TMP_FILES_ROOT
      request st calls ∧
    (∀ id, EnqueueCall id ∈ calls →
       id = job_id' request ∧
       (rq_jobs st !! id = None ∨
        ∃ job p, rq_jobs st !! id = Some job ∧ job_status job = FINISHED p ∧
                 path_exists p = false)) ∧
    (∀ job, rq_jobs st !! job_id' request = Some job →
       (∀ p, job_status job = FINISHED p → path_exists p = true) →
       ∀ id, EnqueueCall id ∉ calls).
Proof.
  assert (∃ calls,
    calls_of parse_timestamp uuid4 now path_exists TMP_FILES_ROOT
      request st calls ∧
    (∀ id, EnqueueCall id ∈ calls →
       id = job_id' request ∧
       (rq_jobs st !! id = None ∨
        ∃ job p, rq_jobs st !! id = Some job ∧ job_status job = FINISHED p ∧
                 path_exists p = false))) as (calls & Hc & Honly).
  { unfold calls_of. rewrite export_phases.
    destruct (checks parse_timestamp request) as [qp|e].
    2: { exists []. split; [by rewrite app_nil_r|].
         by intros id ?%elem_of_nil. }
    destruct (serve_cases uuid4 now path_exists TMP_FILES_ROOT request qp st)
      as [[Hn E]|[(job&p&Hj&Hs&Hp&E)|[(?&?&?&_&_&_&E)|[(?&?&_&_&_&E)|
          [(?&?&_&_&E)|(?&_&_&_&E)]]]]];
      rewrite E; cbn; eexists; (split; [reflexivity|]); intros id Hin;
      repeat (apply elem_of_cons in Hin as [Hin|Hin];
              [try discriminate Hin|]);
      try (by apply elem_of_nil in Hin).
    - injection Hin as ->. eauto.
    - injection Hin as ->. eauto 8. }
  exists calls. split_and!; [done|done|].
  intros job Hj Hfile id Hin.
  destruct (Honly id Hin) as [-> [Hnone|(job' & p & Hj' & Hs & Hp)]].
  - congruence.
  - assert (job' = job) as -> by congruence.
    specialize (Hfile p Hs). congruence.
Qed.

(** C2, as amended: a poll that finds the job finished but its artifact file
    missing does not raise and falls through to the submission path: the
    stale record is replaced by a newly enqueued job under the same JobId and
    the answer is 202 Accepted with the query id. *)
Theorem finished_missing_resubmits (request : Request) (st : rq_state)
    (job : Job) (p : string) :
  valid' request →
  rq_jobs st !! job_id' request = Some job →
  job_status job = FINISHED p →
  path_exists p = false →
  ∃ f t,
    export' request st =
    (Ok (accepted' request),
     {| rq_jobs := <[job_id' request :=
                      queued_job' request (filters request f t)]> (rq_jobs st);
        rq_log := rq_log st ++
          [FetchJob (job_id' request); EnqueueCall (job_id' request)] |}).
Proof.
  intros Hv Hj Hs Hp.
  destruct (export_valid _ uuid4 now path_exists TMP_FILES_ROOT request st Hv)
    as (f & t & ->).
  exists f, t. by eapply serve_finished_missing.
Qed.

(** C3, as amended: when the [from] and [to] parameters are absent, empty,
    or dates with a non-zero timestamp, [export] raises a validation error
    exactly when no scope filter is populated, or [from] is later than [to],
    or [action] is neither absent nor ["download"]; and whenever [export]
    raises, the queue is untouched: no job fetched, created or enqueued. *)
Theorem validation_errors (request : Request) (st : rq_state) :
  well_dated parse_timestamp request "from" →
  well_dated parse_timestamp request "to" →
  ((∃ msg, (export' request st).1 = Raise (ValidationError msg)) ↔
   invalid parse_timestamp request)
  ∧ (∀ e, (export' request st).1 = Raise e → (export' request st).2 = st).
Proof.
  intros Wf Wt. split.
  2: { intros e H. apply export_raise_untouched in H. by rewrite H. }
  destruct (well_dated_parsed _ _ _ Wf) as [f Hf].
  destruct (well_dated_parsed _ _ _ Wt) as [t Ht].
  rewrite export_phases, (checks_verdict _ _ _ _ Hf Ht).
  pose proof (verdict_validation_error request f t) as V.
  assert ((truthy f && truthy t && later f t = true ∨ scoped request = false ∨
           action_unexpected (query_params request !! "action") = true) ↔
          invalid parse_timestamp request) as Hinv.
  { unfold invalid.
    rewrite scoped_false, action_unexpected_true. split.
    - intros [H|[H|H]]; [right; left|by left|by right; right].
      by eapply range_check_sound.
    - intros [H|[H|H]]; [by right; left| left |by right; right].
      by eapply range_check_complete. }
  rewrite <- Hinv, <- V.
  destruct (verdict request f t) as [qp|e]; cbn.
  2: { split; intros [msg H]; exists msg; congruence. }
  destruct (serve_returns uuid4 now path_exists TMP_FILES_ROOT request qp st)
    as [r E].
  split; intros [msg H]; [congruence|done].
Qed.

(** C10: a populated [from] or [to] that the date parser rejects makes
    [export] raise the parser's exception, which is not a validation error,
    with the queue untouched: the scope and action checks, the lookup and the
    enqueue are never reached. *)
Theorem unparseable_date_propagates (request : Request) (st : rq_state) :
  unparseable parse_timestamp request "from" ∨
  unparseable parse_timestamp request "to" →
  export' request st = (Raise ParserError, st).
Proof.
  intros H. by rewrite export_phases, (checks_unparseable _ _ H).
Qed.

(** C4, as amended: of the responses [export] returns, exactly the 202
    Accepted ones (new submission, job still queued or running) carry the
    query id in their body; the 201 response has no body, the body of the 500
    response is the error detail, and a download is the file itself. *)
Theorem accepted_carries_query_id (request : Request) (st : rq_state)
    (r : response) :
  (export' request st).1 = Ok r →
  carries_query_id (query_id_of uuid4 request) r ↔
  ∃ data, r = Response data HTTP_202_ACCEPTED.
Proof.
  rewrite export_phases.
  destruct (checks parse_timestamp request) as [qp|e]; [|done].
  destruct (serve_cases uuid4 now path_exists TMP_FILES_ROOT request qp st)
    as [[_ E]|[(?&?&_&_&_&E)|[(?&?&?&_&_&_&E)|[(?&?&_&_&_&E)|
        [(?&?&_&_&E)|(?&_&_&_&E)]]]]];
    rewrite E; cbn; intros [= <-]; cbn.
  1, 2, 6: split; [by eauto|intros _; by apply list_elem_of_here].
  all: split; [done|by intros [? [=]]].
Qed.

(** C6: a poll that finds the job finished with its artifact file on disk
    either, on [action=download], deletes the job record and returns the
    file as an attachment named by the caller's [filename] or by
    [logs_<timestamp>.csv]; or, without [action=download], answers 201
    Created and keeps the record. *)
Theorem finished_with_artifact (request : Request) (st : rq_state)
    (job : Job) (p : string) :
  valid' request →
  rq_jobs st !! job_id' request = Some job →
  job_status job = FINISHED p →
  path_exists p = true →
  (query_params request !! "action" = Some "download" →
   export' request st =
   (Ok (SendFile p true
          (str_or (query_params request !! "filename")
                  ("logs_" +:+ now +:+ ".csv"))),
    {| rq_jobs := delete (job_id' request) (rq_jobs st);
       rq_log := rq_log st ++
         [FetchJob (job_id' request); DeleteJob (job_id' request)] |}))
  ∧ (query_params request !! "action" ≠ Some "download" →
     export' request st =
     (Ok (Response None HTTP_201_CREATED),
      {| rq_jobs := rq_jobs st;
         rq_log := rq_log st ++ [FetchJob (job_id' request)] |})).
Proof.
  intros Hv Hj Hs Hp.
  destruct (export_valid _ uuid4 now path_exists TMP_FILES_ROOT request st Hv)
    as (f & t & ->).
  split; intros Ha.
  - by eapply serve_finished_download.
  - by eapply serve_finished_ready.
Qed.

(** C7: a poll that finds the job failed deletes the job record and answers
    500 with the stored error detail as its body; the record is gone
    afterwards, so no later poll for the same JobId, whatever its
    parameters, is answered with a 500 from that state. *)
Theorem failed_delivered_once (request : Request) (st : rq_state)
    (job : Job) (exc_info : option string) :
  valid' request →
  rq_jobs st !! job_id' request = Some job →
  job_status job = FAILED exc_info →
  let st' := (export' request st).2 in
  export' request st =
  (Ok (Response (Some (BodyStr (py_str exc_info)))
         HTTP_500_INTERNAL_SERVER_ERROR),
   {| rq_jobs := delete (job_id' request) (rq_jobs st);
      rq_log := rq_log st ++
        [FetchJob (job_id' request); DeleteJob (job_id' request)] |})
  ∧ rq_jobs st' !! job_id' request = None
  ∧ ∀ parse2 uuid2 now2 path_exists2 root2 request2 data,
      job_id_of uuid2 request2 = job_id' request →
      (export parse2 uuid2 now2 path_exists2 root2 request2 st').1 ≠
      Ok (Response data HTTP_500_INTERNAL_SERVER_ERROR).
Proof.
  intros Hv Hj Hs st'. subst st'.
  destruct (export_valid _ uuid4 now path_exists TMP_FILES_ROOT request st Hv)
    as (f & t & ->).
  rewrite (serve_failed _ _ _ _ _ _ _ _ _ Hj Hs). cbn.
  split; [done|]. split; [by apply lookup_delete_eq|].
  intros parse2 uuid2 now2 path_exists2 root2 request2 data Hid.
  rewrite export_phases. destruct (checks parse2 request2) as [qp|e]; [|done].
  rewrite serve_absent; [done|].
  cbn. rewrite Hid. by apply lookup_delete_eq.
Qed.

End ExportProperties.

(** ** Properties of the job identifier *)

Lemma length_append (s t : string) :
  String.length (s +:+ t) = String.length s + String.length t.
Proof.
  induction s as [|a s IH]; [reflexivity|].
  change (S (String.length (s +:+ t)) = S (String.length s) + String.length t).
  by rewrite IH.
Qed.

Lemma append_inj_r (t s1 s2 : string) : s1 +:+ t = s2 +:+ t → s1 = s2.
Proof.
  revert s2. induction s1 as [|a s1 IH]; intros [|b s2] H.
  - reflexivity.
  - apply (f_equal String.length) in H.
    rewrite !length_append in H. simpl in H. lia.
  - apply (f_equal String.length) in H.
    rewrite !length_append in H. simpl in H. lia.
  - change (String a (s1 +:+ t) = String b (s2 +:+ t)) in H.
    injection H as -> H. f_equal. by apply IH.
Qed.

(** C8: the JobId is the literal [export:csv-logs-{query_id}-by-{user}]; for a
    fixed user equal query ids give equal JobIds and distinct query ids give
    distinct JobIds. *)
Theorem rq_id_deterministic_injective (user q1 q2 : string) :
  rq_id_of q1 user = "export:csv-logs-" +:+ q1 +:+ "-by-" +:+ user
  ∧ (rq_id_of q1 user = rq_id_of q2 user ↔ q1 = q2).
Proof.
  split; [reflexivity|]. split; [|by intros ->].
  unfold rq_id_of. intros H.
  apply (inj (String.app _)) in H.
  by apply append_inj_r in H.
Qed.

(** ** The properties on the scenarios *)

Section OnScenarios.
Import Scenario.

Ltac scenario_valid :=
  split_and!;
  [ intros (s & H1 & _ & H3); vm_compute in H1; injection H1 as <-;
    vm_compute in H3; discriminate H3
  | intros (s & H1 & _ & H3); vm_compute in H1; injection H1 as <-;
    vm_compute in H3; discriminate H3
  | intros [H|[H|H]];
    [ specialize (H "task" ltac:(by repeat constructor));
      vm_compute in H; discriminate H
    | destruct H as (s1 & s2 & f & t & H1 & _ & H2 & _ & P1 & P2 & Hl);
      vm_compute in H1, H2; injection H1 as <-; injection H2 as <-;
      vm_compute in P1, P2; injection P1 as <-; injection P2 as <-;
      vm_compute in Hl; discriminate Hl
    | destruct H as (a & H1 & Ha); vm_compute in H1;
      try discriminate H1; injection H1 as <-; by apply Ha ] ].

Lemma poll_request_valid : valid parse poll_request.
Proof. scenario_valid. Qed.

Lemma download_request_valid : valid parse download_request.
Proof. scenario_valid. Qed.

(** C1 on a scenario: the job is finished, its artifact is on disk, and the
    poll enqueues nothing. *)
Lemma enqueues_only_when_absent_or_evicted_witness :
  ∃ calls,
    calls_of parse uuid now on_disk root poll_request
      (queue_with (job_in (FINISHED artifact))) calls ∧
    ∀ id, EnqueueCall id ∉ calls.
Proof.
  destruct (enqueues_only_when_absent_or_evicted parse uuid now on_disk root
              poll_request (queue_with (job_in (FINISHED artifact))))
    as (calls & Hc & _ & Hnone).
  exists calls. split; [exact Hc|].
  apply (Hnone (job_in (FINISHED artifact))).
  - by vm_compute.
  - intros p [= <-]. by vm_compute.
Defined.

(** C1 as stated fails: the queue holds a (finished) record for the JobId,
    the artifact has been evicted, and the poll enqueues a new production
    job all the same. *)
Lemma resubmitted_while_record_exists :
  ¬ (is_Some (rq_jobs (queue_with (job_in (FINISHED artifact)))
                !! job_id_of uuid poll_request) →
     ∀ calls,
       calls_of parse uuid now evicted root poll_request
         (queue_with (job_in (FINISHED artifact))) calls →
       EnqueueCall (job_id_of uuid poll_request) ∉ calls).
Proof.
  intros H.
  apply (H ltac:(by vm_compute; eexists)
           [FetchJob job_id; EnqueueCall job_id] ltac:(by vm_compute)).
  vm_compute. by repeat constructor.
Qed.

(** C2 on the scenario: finished, evicted, polled again. *)
Lemma finished_missing_resubmits_witness :
  ∃ f t,
    export parse uuid now evicted root poll_request
      (queue_with (job_in (FINISHED artifact))) =
    (Ok (accepted uuid poll_request),
     {| rq_jobs :=
          <[job_id_of uuid poll_request :=
              queued_job uuid root poll_request (filters poll_request f t)]>
            (rq_jobs (queue_with (job_in (FINISHED artifact))));
        rq_log := rq_log (queue_with (job_in (FINISHED artifact))) ++
          [FetchJob (job_id_of uuid poll_request);
           EnqueueCall (job_id_of uuid poll_request)] |}).
Proof.
  apply (finished_missing_resubmits parse uuid now evicted root poll_request
           (queue_with (job_in (FINISHED artifact)))
           (job_in (FINISHED artifact)) artifact).
  - exact poll_request_valid.
  - by vm_compute.
  - reflexivity.
  - reflexivity.
Defined.

(** C2 as stated fails: after the poll the record under the JobId is no
    longer the stale finished one, and a job was enqueued. *)
Lemma stale_record_replaced :
  let st := queue_with (job_in (FINISHED artifact)) in
  let st' := (export parse uuid now evicted root poll_request st).2 in
  ¬ (rq_jobs st' !! job_id = rq_jobs st !! job_id ∧
     EnqueueCall job_id ∉ rq_log st').
Proof.
  intros st st' [H _]. vm_compute in H. discriminate H.
Qed.

(** C3 on the scenario with [from] after [to]: rejected, queue untouched. *)
Lemma validation_errors_witness :
  ((∃ msg, (export parse uuid now on_disk root reversed_request
              empty_queue).1 = Raise (ValidationError msg)) ↔
   invalid parse reversed_request)
  ∧ (∀ e, (export parse uuid now on_disk root reversed_request
             empty_queue).1 = Raise e →
          (export parse uuid now on_disk root reversed_request
             empty_queue).2 = empty_queue).
Proof.
  apply (validation_errors parse uuid now on_disk root reversed_request
           empty_queue).
  - vm_compute. right. eexists. split; reflexivity.
  - vm_compute. right. eexists. split; reflexivity.
Defined.

(** C3 as stated fails: no scope filter is populated, yet what [export]
    raises is not a validation error, because the date parser raised
    first. *)
Lemma parser_error_preempts_validation :
  ¬ ((∃ msg, (export parse uuid now on_disk root undated_request
                empty_queue).1 = Raise (ValidationError msg)) ↔
     invalid parse undated_request).
Proof.
  intros [_ H]. destruct H as [msg Hm].
  - left. intros k Hk.
    repeat (apply elem_of_cons in Hk as [->|Hk]; [by vm_compute|]).
    by apply elem_of_nil in Hk.
  - vm_compute in Hm. discriminate Hm.
Qed.

(** C4 on the scenario of a first submission: 202, with the query id. *)
Lemma accepted_carries_query_id_witness :
  carries_query_id (query_id_of uuid poll_request)
    (Response (Some (BodyDict [("query-id", "q1")])) HTTP_202_ACCEPTED) ↔
  ∃ data,
    Response (Some (BodyDict [("query-id", "q1")])) HTTP_202_ACCEPTED =
    Response data HTTP_202_ACCEPTED.
Proof.
  apply (accepted_carries_query_id parse uuid now on_disk root poll_request
           empty_queue).
  by vm_compute.
Defined.

(** C4 as stated fails: the job is finished and its file is on disk, and the
    poll is answered 201 Created with no body at all. *)
Lemma ready_response_has_no_query_id :
  ¬ (∀ r, (export parse uuid now on_disk root poll_request
             (queue_with (job_in (FINISHED artifact)))).1 = Ok r →
          carries_query_id (query_id_of uuid poll_request) r).
Proof.
  intros H.
  exact (H (Response None HTTP_201_CREATED) ltac:(by vm_compute)).
Qed.

(** C6 on the scenario: download, then the plain poll. *)
Lemma finished_with_artifact_witness :
  export parse uuid now on_disk root download_request
    (queue_with (job_in (FINISHED artifact))) =
  (Ok (SendFile artifact true "logs_2023_03_01_12_00_00.csv"),
   {| rq_jobs := delete job_id {[ job_id := job_in (FINISHED artifact) ]};
      rq_log := [FetchJob job_id; DeleteJob job_id] |}).
Proof.
  destruct (finished_with_artifact parse uuid now on_disk root
              download_request (queue_with (job_in (FINISHED artifact)))
              (job_in (FINISHED artifact)) artifact) as [H _].
  - exact download_request_valid.
  - by vm_compute.
  - reflexivity.
  - by vm_compute.
  - apply H. by vm_compute.
Defined.

(** C7 on the scenario: the failure is reported and the record is gone. *)
Lemma failed_delivered_once_witness :
  export parse uuid now on_disk root poll_request
    (queue_with (job_in (FAILED (Some traceback)))) =
  (Ok (Response (Some (BodyStr traceback)) HTTP_500_INTERNAL_SERVER_ERROR),
   {| rq_jobs :=
        delete job_id {[ job_id := job_in (FAILED (Some traceback)) ]};
      rq_log := [FetchJob job_id; DeleteJob job_id] |}).
Proof.
  destruct (failed_delivered_once parse uuid now on_disk root poll_request
              (queue_with (job_in (FAILED (Some traceback))))
              (job_in (FAILED (Some traceback))) (Some traceback)) as [H _].
  - exact poll_request_valid.
  - by vm_compute.
  - reflexivity.
  - exact H.
Defined.

(** C10 on the scenario: the parser's exception, and an untouched queue. *)
Lemma unparseable_date_propagates_witness :
  export parse uuid now on_disk root undated_request empty_queue =
  (Raise ParserError, empty_queue).
Proof.
  apply (unparseable_date_propagates parse uuid now on_disk root
           undated_request empty_queue).
  left. eexists. split; [by vm_compute|]. split; [done|by vm_compute].
Defined.

(** The closed form on the scenario: the query and the parameters for
    [task=5] between the two dates. *)
Lemma query_is_parameterised_witness :
  clickhouse_calls
    (_create_csv clickhouse_up writable 1677672000%float 0 artifact
       DEFAULT_CACHE_TTL worker).2 =
  [("SELECT * FROM events WHERE task = {task:UInt64} AND timestamp >= {from:DateTime64} AND timestamp <= {to:DateTime64}",
    [("task", PyStr "5"); ("from", PyFloat 1672531200);
     ("to", PyFloat 1675209600)])].
Proof.
  destruct (query_is_parameterised clickhouse_up writable 1677672000%float 0
              artifact DEFAULT_CACHE_TTL worker
              (PyFloat 1672531200) (PyFloat 1675209600)) as [H _].
  - apply (bool_decide_unpack _). by vm_compute.
  - reflexivity.
  - reflexivity.
  - exact H.
Defined.

(** C9 on the scenario with ClickHouse down: the call raises, and the two
    keys are gone from the caller's dictionary. *)
Lemma create_csv_pops_time_filter_witness :
  (_create_csv clickhouse_down writable 1677672000%float 0 artifact
     DEFAULT_CACHE_TTL worker).1 = Raise ClickHouseError
  ∧ heap (_create_csv clickhouse_down writable 1677672000%float 0 artifact
            DEFAULT_CACHE_TTL worker).2 0 =
    [ ("organization", PyNone); ("project", PyNone); ("task", PyStr "5");
      ("job", PyNone); ("user", PyNone) ].
Proof.
  split; [by vm_compute|].
  destruct (create_csv_pops_time_filter clickhouse_down writable
              1677672000%float 0 artifact DEFAULT_CACHE_TTL worker)
    as [H _].
  - apply (bool_decide_unpack _). by vm_compute.
  - unfold PyDict.has_key. apply (bool_decide_unpack _). by vm_compute.
  - unfold PyDict.has_key. apply (bool_decide_unpack _). by vm_compute.
  - exact H.
Defined.

(** The range check tests the truth value of the parsed timestamps, and the
    timestamp of the epoch is 0.0: a [from] at the epoch is taken as absent,
    here with a [to] that lies before it. *)
Example epoch_from_is_taken_as_absent :
  from_later_than_to parse epoch_request
  ∧ (export parse uuid now on_disk root epoch_request empty_queue).1 =
    Ok (Response (Some (BodyDict [("query-id", "q1")])) HTTP_202_ACCEPTED).
Proof.
  split; [|by vm_compute].
  exists "1970-01-01T00:00:00Z", "1969-12-31T00:00:00Z", 0%float,
    (-86400)%float.
  split_and!; by vm_compute.
Qed.

End OnScenarios.

(** ** More properties of [export] *)

Section ExportMore.

Variable parse_timestamp : string → option float.
Variable uuid4 : string.
Variable now : string.
Variable path_exists : string → bool.
Variable TMP_FILES_ROOT : string.

Abbreviation export' :=
  (export parse_timestamp uuid4 now path_exists TMP_FILES_ROOT).
Abbreviation job_id' := (job_id_of uuid4).
Abbreviation valid' := (valid parse_timestamp).
Abbreviation parsed' := (parsed parse_timestamp).

Lemma valid_parsed (request : Request) :
  valid' request →
  ∃ f t, parsed' (param request "from") = Ok f ∧
         parsed' (param request "to") = Ok t ∧
         checks parse_timestamp request = Ok (filters request f t).
Proof.
  intros (Uf & Ut & Hinv).
  destruct (parseable_parsed _ request "from" Uf) as [f Hf].
  destruct (parseable_parsed _ request "to" Ut) as [t Ht].
  exists f, t. split_and!; [done|done|].
  rewrite (checks_verdict _ request f t Hf Ht).
  unfold verdict, invalid in *.
  destruct (truthy f && truthy t && later f t) eqn:Hr.
  { destruct Hinv. right; left. by eapply range_check_sound. }
  destruct (scoped request) eqn:Hs; cbn.
  2: { destruct Hinv. left. by apply scoped_false. }
  destruct (action_unexpected _) eqn:Ha; [|done].
  destruct Hinv. right; right. by apply action_unexpected_true.
Qed.

(** With a query id of the caller's, the JobId does not depend on the uuid
    drawn for the request. *)
Lemma job_id_supplied (request : Request) (q u : string) :
  supplies_query_id request q →
  job_id_of u request = rq_id_of q (user request)
  ∧ query_id_of u request = q.
Proof.
  intros [Hq Hne]. unfold job_id_of, query_id_of. rewrite Hq. cbn.
  by rewrite bool_decide_eq_false_2.
Qed.

(** X1: the first request for a JobId (valid, no record yet) enqueues one
    queued job under it, with the seven filters in their fixed order (dates
    as timestamps), the output file [<TMP_FILES_ROOT>/<query_id>.csv] and one
    hour for the cache, the result and the failure TTL, and is answered 202
    with the query id. *)
Theorem first_submission (request : Request) (st : rq_state) :
  valid' request →
  rq_jobs st !! job_id' request = None →
  ∃ f t,
    parsed' (param request "from") = Ok f ∧
    parsed' (param request "to") = Ok t ∧
    export' request st =
    (Ok (Response (Some (BodyDict [("query-id", query_id_of uuid4 request)]))
           HTTP_202_ACCEPTED),
     {| rq_jobs :=
          <[job_id' request :=
             {| job_status := QUEUED;
                job_args :=
                  (scope_filters request ++ [("from", f); ("to", t)],
                   os_path_join TMP_FILES_ROOT
                     (query_id_of uuid4 request +:+ ".csv"),
                   3600%Z);
                job_result_ttl := 3600; job_failure_ttl := 3600 |}]>
            (rq_jobs st);
        rq_log := rq_log st ++
          [FetchJob (job_id' request); EnqueueCall (job_id' request)] |}).
Proof.
  intros (f & t & Hf & Ht & Hc)%valid_parsed Hn.
  exists f, t. split_and!; [done|done|].
  rewrite export_phases, Hc. by erewrite serve_absent.
Qed.

Lemma polls_pending (request : Request) (q : string) (qp : dict)
    (job : Job) (envs : list (string * string)) (st : rq_state) :
  checks parse_timestamp request = Ok qp →
  supplies_query_id request q →
  rq_jobs st !! rq_id_of q (user request) = Some job →
  pending job →
  polls parse_timestamp path_exists TMP_FILES_ROOT envs request st =
  (replicate (length envs)
     (Ok (Response (Some (BodyDict [("query-id", q)])) HTTP_202_ACCEPTED)),
   {| rq_jobs := rq_jobs st;
      rq_log := rq_log st ++
        replicate (length envs) (FetchJob (rq_id_of q (user request))) |}).
Proof.
  intros Hc Hq Hj [Hfin Hfail].
  revert st Hj. induction envs as [|[u n] envs IH]; intros st Hj; cbn.
  - rewrite app_nil_r. by destruct st.
  - destruct (job_id_supplied request q u Hq) as [Hid Hqid].
    rewrite export_phases, Hc.
    erewrite serve_pending; [|by rewrite Hid|done|done].
    rewrite IH by done. cbn. unfold accepted, query_id_body.
    rewrite Hid, Hqid. by rewrite <- app_assoc.
Qed.

(** X2: while the record of the JobId is neither finished nor failed, any
    number of polls (whatever their action) are all answered 202 with the
    query id and change no record: the queue only sees one fetch per poll. *)
Theorem pending_polls_change_nothing (request : Request) (q : string)
    (job : Job) (envs : list (string * string)) (st : rq_state) :
  valid' request →
  supplies_query_id request q →
  rq_jobs st !! rq_id_of q (user request) = Some job →
  pending job →
  polls parse_timestamp path_exists TMP_FILES_ROOT envs request st =
  (replicate (length envs)
     (Ok (Response (Some (BodyDict [("query-id", q)])) HTTP_202_ACCEPTED)),
   {| rq_jobs := rq_jobs st;
      rq_log := rq_log st ++
        replicate (length envs) (FetchJob (rq_id_of q (user request))) |}).
Proof.
  intros (f & t & _ & _ & Hc)%valid_parsed Hq Hj Hp.
  exact (polls_pending request q _ job envs st Hc Hq Hj Hp).
Qed.

Lemma enqueue_count_app (l1 l2 : list rq_call) :
  enqueue_count (l1 ++ l2) = enqueue_count l1 + enqueue_count l2.
Proof. unfold enqueue_count. by rewrite List.filter_app, length_app. Qed.

Lemma enqueue_count_fetches (n : nat) (id : string) :
  enqueue_count (replicate n (FetchJob id)) = 0.
Proof. induction n as [|n IH]; [done|]. exact IH. Qed.

Lemma polls_amid_pending (request : Request) (q : string) (qp : dict)
    (steps : list (interference * (string * string))) (job : Job)
    (st : rq_state) :
  checks parse_timestamp request = Ok qp →
  supplies_query_id request q →
  Forall (λ step, keeps_pending (rq_id_of q (user request)) step.1) steps →
  rq_jobs st !! rq_id_of q (user request) = Some job →
  pending job →
  let out :=
    polls_amid parse_timestamp path_exists TMP_FILES_ROOT steps request st in
  out.1 =
    replicate (length steps)
      (Ok (Response (Some (BodyDict [("query-id", q)])) HTTP_202_ACCEPTED))
  ∧ rq_log out.2 =
    rq_log st ++ replicate (length steps) (FetchJob (rq_id_of q (user request)))
  ∧ ∃ job', rq_jobs out.2 !! rq_id_of q (user request) = Some job' ∧
            pending job'.
Proof.
  intros Hc Hq Hsteps. revert st job.
  induction Hsteps as [|[g [u n]] steps Hg _ IH]; intros st job Hj Hp; cbn.
  - rewrite app_nil_r. eauto.
  - destruct (Hg _ _ Hj Hp) as (job1 & Hj1 & [Hfin Hfail]).
    destruct (job_id_supplied request q u Hq) as [Hid Hqid].
    rewrite export_phases, Hc.
    erewrite serve_pending; [|by rewrite Hid|done|done].
    specialize (IH {| rq_jobs := g (rq_jobs st);
                      rq_log := rq_log st ++ [FetchJob (job_id_of u request)] |}
                   job1 Hj1 (conj Hfin Hfail)).
    cbn zeta in IH.
    destruct (polls_amid parse_timestamp path_exists TMP_FILES_ROOT steps
                request _) as [rs st2].
    destruct IH as (Hrs & Hlog & Hrec). cbn in *.
    split_and!; [|by rewrite Hlog, Hid, <- app_assoc|done].
    unfold accepted, query_id_body. by rewrite Hqid, Hrs.
Qed.

(** X3: a first request followed by any number of polls with the same query
    id enqueues the production job exactly once, provided that whatever
    happens to the queue between the requests (a worker taking the job up,
    other requests) leaves the record of the JobId neither finished nor
    failed; every answer, the first included, is then the same 202 with the
    query id. *)
Theorem one_submission_many_polls (request : Request) (q : string)
    (steps : list (interference * (string * string))) (st : rq_state) :
  valid' request →
  supplies_query_id request q →
  rq_jobs st !! rq_id_of q (user request) = None →
  Forall (λ step, keeps_pending (rq_id_of q (user request)) step.1) steps →
  let first := export' request st in
  let out :=
    polls_amid parse_timestamp path_exists TMP_FILES_ROOT
      steps request first.2 in
  first.1 :: out.1 =
    replicate (S (length steps))
      (Ok (Response (Some (BodyDict [("query-id", q)])) HTTP_202_ACCEPTED))
  ∧ enqueue_count (rq_log out.2) = S (enqueue_count (rq_log st))
  ∧ ∃ job, rq_jobs out.2 !! rq_id_of q (user request) = Some job ∧
           pending job.
Proof.
  intros (f & t & _ & _ & Hc)%valid_parsed Hq Hn Hsteps first out.
  subst out first.
  destruct (job_id_supplied request q uuid4 Hq) as [Hid Hqid].
  rewrite export_phases, Hc.
  erewrite serve_absent by (by rewrite Hid).
  unfold accepted, query_id_body. rewrite Hid, Hqid. cbn [fst snd].
  destruct (polls_amid_pending request q _ steps
              (queued_job uuid4 TMP_FILES_ROOT request (filters request f t))
              {| rq_jobs := <[rq_id_of q (user request) :=
                   queued_job uuid4 TMP_FILES_ROOT request
                     (filters request f t)]> (rq_jobs st);
                 rq_log := rq_log st ++
                   [FetchJob (rq_id_of q (user request));
                    EnqueueCall (rq_id_of q (user request))] |}
              Hc Hq Hsteps) as (Hrs & Hlog & Hrec).
  { cbn. apply lookup_insert_eq. }
  { by split. }
  split_and!; [by rewrite Hrs| |done].
  rewrite Hlog. cbn [rq_log].
  rewrite !enqueue_count_app, enqueue_count_fetches. cbn. lia.
Qed.

(** X4: once a finished job has been downloaded its record is gone, so the
    next valid request for the same JobId is answered 202 and enqueues the
    production job again; it does not get the file a second time. *)
Theorem download_then_poll_resubmits (request : Request) (st : rq_state)
    (job : Job) (p : string) (uuid2 now2 : string)
    (path_exists2 : string → bool) (request2 : Request) :
  valid' request →
  rq_jobs st !! job_id' request = Some job →
  job_status job = FINISHED p →
  path_exists p = true →
  query_params request !! "action" = Some "download" →
  valid' request2 →
  job_id_of uuid2 request2 = job_id' request →
  let st' := (export' request st).2 in
  let out :=
    export parse_timestamp uuid2 now2 path_exists2 TMP_FILES_ROOT
      request2 st' in
  out.1 =
    Ok (Response (Some (BodyDict [("query-id", query_id_of uuid2 request2)]))
          HTTP_202_ACCEPTED)
  ∧ rq_log out.2 =
    rq_log st ++
    [FetchJob (job_id' request); DeleteJob (job_id' request);
     FetchJob (job_id' request); EnqueueCall (job_id' request)].
Proof.
  intros Hv Hj Hs Hp Ha Hv2 Hid st' out. subst out st'.
  destruct (valid_parsed request Hv) as (f & t & _ & _ & Hc).
  rewrite (export_phases _ uuid4), Hc.
  erewrite serve_finished_download by done. cbn [snd].
  destruct (valid_parsed request2 Hv2) as (f2 & t2 & _ & _ & Hc2).
  rewrite (export_phases _ uuid2), Hc2.
  erewrite serve_absent.
  - cbn. rewrite Hid. split; [done|]. by rewrite <- app_assoc.
  - cbn. rewrite Hid. apply lookup_delete_eq.
Qed.

(** X5: [export] never touches the record of another JobId, whatever the
    request and whatever it finds under its own. *)
Theorem other_jobs_untouched (request : Request) (st : rq_state)
    (id : string) :
  id ≠ job_id' request →
  rq_jobs (export' request st).2 !! id = rq_jobs st !! id.
Proof.
  intros Hne. rewrite export_phases.
  destruct (checks parse_timestamp request) as [qp|e]; [|done].
  destruct (serve_cases uuid4 now path_exists TMP_FILES_ROOT request qp st)
    as [[_ E]|[(?&?&_&_&_&E)|[(?&?&?&_&_&_&E)|[(?&?&_&_&_&E)|
        [(?&?&_&_&E)|(?&_&_&_&E)]]]]];
    rewrite E; cbn; try done.
  - by apply lookup_insert_ne.
  - by apply lookup_insert_ne.
  - by apply lookup_delete_ne.
  - by apply lookup_delete_ne.
Qed.

(** X6: the calls one run of [export] makes on the queue are none at all
    (exactly when it raises), or a fetch of the request's JobId followed by
    at most one deletion or one enqueue under that same JobId. *)
Theorem queue_calls_shape (request : Request) (st : rq_state) :
  ∃ calls,
    calls_of parse_timestamp uuid4 now path_exists TMP_FILES_ROOT
      request st calls
    ∧ (calls = [] ↔ ∃ e, (export' request st).1 = Raise e)
    ∧ (calls = [] ∨
       calls = [FetchJob (job_id' request)] ∨
       calls = [FetchJob (job_id' request); DeleteJob (job_id' request)] ∨
       calls = [FetchJob (job_id' request); EnqueueCall (job_id' request)]).
Proof.
  unfold calls_of. rewrite export_phases.
  destruct (checks parse_timestamp request) as [qp|e].
  2: { exists []. cbn. rewrite app_nil_r. split_and!; [done| |by left].
       split; eauto. }
  destruct (serve_cases uuid4 now path_exists TMP_FILES_ROOT request qp st)
    as [[_ E]|[(?&?&_&_&_&E)|[(?&?&?&_&_&_&E)|[(?&?&_&_&_&E)|
        [(?&?&_&_&E)|(?&_&_&_&E)]]]]];
    rewrite E; cbn; eexists; (split_and!; [reflexivity| |]);
    try (split; [done|by intros [? ?]]); eauto.
Qed.

(** X7: whenever [export] raises, either the conversion of a populated
    [from] or [to] to a timestamp failed, or the exception is one of the
    three validation errors: the subscripts of its own dictionary and its
    comparison of the two timestamps never raise. *)
Theorem export_raises_only (request : Request) (st : rq_state) (e : exn) :
  (export' request st).1 = Raise e →
  unparseable parse_timestamp request "from" ∨
  unparseable parse_timestamp request "to" ∨
  e = ValidationError msg_range ∨
  e = ValidationError msg_scope ∨ e = ValidationError msg_action.
Proof.
  rewrite export_phases.
  destruct (checks parse_timestamp request) as [qp|e'] eqn:Hc.
  { destruct (serve_returns uuid4 now path_exists TMP_FILES_ROOT request qp st)
      as [r E]. congruence. }
  cbn. intros [= ->]. revert Hc. unfold checks, unparseable.
  pose proof (parsed_param parse_timestamp request "from") as Pf.
  pose proof (parsed_param parse_timestamp request "to") as Pt.
  destruct (parsed parse_timestamp (param request "from")) as [f|ef].
  2: { intros _. left.
       destruct (query_params request !! "from") as [s1|]; [|done].
       destruct (bool_decide (s1 = "")) eqn:E1; [done|].
       apply bool_decide_eq_false in E1.
       destruct (parse_timestamp s1) eqn:P1; [done|]. eauto. }
  destruct (parsed parse_timestamp (param request "to")) as [t|et].
  2: { intros _. right; left.
       destruct (query_params request !! "to") as [s2|]; [|done].
       destruct (bool_decide (s2 = "")) eqn:E2; [done|].
       apply bool_decide_eq_false in E2.
       destruct (parse_timestamp s2) eqn:P2; [done|]. eauto. }
  destruct (truthy f && truthy t && later f t); [intros [= <-]; eauto|].
  destruct (negb (scoped request)); [intros [= <-]; eauto 6|].
  destruct (action_unexpected _); [intros [= <-]; eauto 6|done].
Qed.

(** X8: the three checks run in a fixed order, so a request that fails
    several of them is rejected for the first one it fails: the date range
    before the scope filters, the scope filters before the action. *)
Theorem validation_precedence (request : Request) (st : rq_state) :
  well_dated parse_timestamp request "from" →
  well_dated parse_timestamp request "to" →
  (from_later_than_to parse_timestamp request →
   export' request st = (Raise (ValidationError msg_range), st))
  ∧ (¬ from_later_than_to parse_timestamp request →
     no_scope_filter request →
     export' request st = (Raise (ValidationError msg_scope), st))
  ∧ (¬ from_later_than_to parse_timestamp request →
     ¬ no_scope_filter request →
     unsupported_action request →
     export' request st = (Raise (ValidationError msg_action), st)).
Proof.
  intros Wf Wt.
  destruct (well_dated_parsed _ _ _ Wf) as [f Hf].
  destruct (well_dated_parsed _ _ _ Wt) as [t Ht].
  rewrite export_phases, (checks_verdict _ _ _ _ Hf Ht). unfold verdict.
  destruct (truthy f && truthy t && later f t) eqn:Hr.
  - split_and!; [done| |]; intros Hno; destruct Hno;
      by eapply range_check_sound.
  - split_and!.
    + intros Hl.
      by rewrite (range_check_complete _ _ _ _ Wf Wt Hf Ht Hl) in Hr.
    + intros _ Hs%scoped_false. by rewrite Hs.
    + intros _ Hs Ha%action_unexpected_true.
      destruct (scoped request) eqn:E; [|by destruct Hs; apply scoped_false].
      cbn. by rewrite Ha.
Qed.

(** X9: whether a request is rejected, and with which exception, depends on
    the request alone: a request rejected on one queue is rejected in the
    same way on every queue, which it leaves as it is. *)
Theorem rejection_independent_of_queue (request : Request)
    (st1 st2 : rq_state) (e : exn) :
  (export' request st1).1 = Raise e →
  export' request st2 = (Raise e, st2).
Proof.
  rewrite !export_phases.
  destruct (checks parse_timestamp request) as [qp|e'].
  - destruct (serve_returns uuid4 now path_exists TMP_FILES_ROOT request qp
                st1) as [r E]. congruence.
  - cbn. by intros [= ->].
Qed.

(** X21: while the job is finished and its file stays on disk, any number
    of polls without [action=download] are all answered 201 Created and
    change no record: the artifact waits for the download. *)
Theorem ready_polls_change_nothing (request : Request) (q : string)
    (job : Job) (p : string) (envs : list (string * string))
    (st : rq_state) :
  valid' request →
  supplies_query_id request q →
  query_params request !! "action" ≠ Some "download" →
  rq_jobs st !! rq_id_of q (user request) = Some job →
  job_status job = FINISHED p →
  path_exists p = true →
  polls parse_timestamp path_exists TMP_FILES_ROOT envs request st =
  (replicate (length envs) (Ok (Response None HTTP_201_CREATED)),
   {| rq_jobs := rq_jobs st;
      rq_log := rq_log st ++
        replicate (length envs) (FetchJob (rq_id_of q (user request))) |}).
Proof.
  intros (f & t & _ & _ & Hc)%valid_parsed Hq Ha Hj Hs Hp.
  revert st Hj. induction envs as [|[u n] envs IH]; intros st Hj; cbn.
  - rewrite app_nil_r. by destruct st.
  - destruct (job_id_supplied request q u Hq) as [Hid _].
    rewrite export_phases, Hc.
    erewrite serve_finished_ready; [|by rewrite Hid|done|done|done].
    rewrite IH by done. cbn. rewrite Hid. by rewrite <- app_assoc.
Qed.

(** X22: once a failure has been reported its record is gone, so the next
    valid request for the same JobId starts the export again: it is answered
    202 and the production job is enqueued anew. *)
Theorem failure_then_poll_resubmits (request : Request) (st : rq_state)
    (job : Job) (exc_info : option string) (uuid2 now2 : string)
    (path_exists2 : string → bool) (request2 : Request) :
  valid' request →
  rq_jobs st !! job_id' request = Some job →
  job_status job = FAILED exc_info →
  valid' request2 →
  job_id_of uuid2 request2 = job_id' request →
  let st' := (export' request st).2 in
  let out :=
    export parse_timestamp uuid2 now2 path_exists2 TMP_FILES_ROOT
      request2 st' in
  out.1 =
    Ok (Response (Some (BodyDict [("query-id", query_id_of uuid2 request2)]))
          HTTP_202_ACCEPTED)
  ∧ rq_log out.2 =
    rq_log st ++
    [FetchJob (job_id' request); DeleteJob (job_id' request);
     FetchJob (job_id' request); EnqueueCall (job_id' request)]
  ∧ ∃ job2, rq_jobs out.2 !! job_id' request = Some job2 ∧
            job_status job2 = QUEUED.
Proof.
  intros Hv Hj Hs Hv2 Hid st' out. subst out st'.
  destruct (valid_parsed request Hv) as (f & t & _ & _ & Hc).
  rewrite (export_phases _ uuid4), Hc.
  erewrite serve_failed by done. cbn [snd].
  destruct (valid_parsed request2 Hv2) as (f2 & t2 & _ & _ & Hc2).
  rewrite (export_phases _ uuid2), Hc2.
  erewrite serve_absent.
  - cbn. rewrite Hid. split_and!; [done|by rewrite <- app_assoc|].
    eexists. split; [apply lookup_insert_eq|done].
  - cbn. rewrite Hid. apply lookup_delete_eq.
Qed.

End ExportMore.

(** ** More properties of [_create_csv] *)

Section WorkerMore.
Import PyDict PyDictFacts.

Variable clickhouse : string → dict → option query_result.
Variable can_open : string → bool.
Variable ctime_now : float.

Abbreviation create_csv := (_create_csv clickhouse can_open ctime_now).
Abbreviation produce' := (produce clickhouse can_open ctime_now).

Lemma get_None_key (k : string) (d : dict) :
  ¬ has_key k d ↔ get k d = None.
Proof.
  rewrite get_Some_key. destruct (get k d); split; try done.
  - intros H. destruct H. eauto.
  - by intros _ [? ?].
Qed.

Lemma pop_from_fails (d : nat) (output_filename : string)
    (cache_ttl : Z) (st : worker_state) :
  get "from" (heap st d) = None →
  let out := create_csv d output_filename cache_ttl st in
  out.1 = Raise (KeyError "from")
  ∧ (∀ a, heap out.2 a = heap st a)
  ∧ clickhouse_calls out.2 = clickhouse_calls st
  ∧ files out.2 = files st
  ∧ cleaning_jobs out.2 = cleaning_jobs st
  ∧ slogger out.2 = slogger st ++ [LogException].
Proof.
  intros Hk out. subst out.
  unfold _create_csv, try_log_reraise, mbind, ST_bind, dict_pop, pop.
  rewrite Hk. cbn. split_and!; try done.
  intros a. unfold insert, fn_insert. by case_decide; subst.
Qed.

Lemma pop_to_fails (d : nat) (output_filename : string)
    (cache_ttl : Z) (st : worker_state) (f : pyval) :
  get "from" (heap st d) = Some f →
  get "to" (heap st d) = None →
  let out := create_csv d output_filename cache_ttl st in
  out.1 = Raise (KeyError "to")
  ∧ (∀ a, heap out.2 a = heap (popped d "from" st) a)
  ∧ clickhouse_calls out.2 = clickhouse_calls st
  ∧ files out.2 = files st
  ∧ cleaning_jobs out.2 = cleaning_jobs st
  ∧ slogger out.2 = slogger st ++ [LogException].
Proof.
  intros Hf Ht out. subst out.
  assert (get "to" (heap (popped d "from" st) d) = None) as Ht'.
  { by rewrite heap_popped, get_remove_ne. }
  unfold _create_csv, try_log_reraise.
  rewrite (bind_ok _ _ _ _ _ (dict_pop_ok d "from" f st Hf)).
  unfold mbind, ST_bind, dict_pop, pop. rewrite Ht'. cbn.
  split_and!; try done.
  intros a. unfold insert, fn_insert.
  destruct (decide (d = a)) as [->|Hne]; [|done]. by rewrite decide_True.
Qed.

(** X11: on a dictionary without the [from] key the call raises
    [KeyError('from')] at once: the exception is logged, no dictionary has
    changed, no query is issued, no file is written and no cleanup is
    scheduled. *)
Theorem missing_from_key (d : nat) (output_filename : string)
    (cache_ttl : Z) (st : worker_state) :
  ¬ has_key "from" (heap st d) →
  let out := create_csv d output_filename cache_ttl st in
  out.1 = Raise (KeyError "from")
  ∧ (∀ a, heap out.2 a = heap st a)
  ∧ clickhouse_calls out.2 = clickhouse_calls st
  ∧ files out.2 = files st
  ∧ cleaning_jobs out.2 = cleaning_jobs st
  ∧ slogger out.2 = slogger st ++ [LogException].
Proof.
  intros Hk%get_None_key.
  exact (pop_from_fails d output_filename cache_ttl st Hk).
Qed.

(** X12: on a dictionary with the [from] key but without [to] the call
    raises [KeyError('to')], and by then [from] has been popped: the caller's
    dictionary is left without it. Nothing else has happened. *)
Theorem missing_to_key (d : nat) (output_filename : string)
    (cache_ttl : Z) (st : worker_state) :
  has_key "from" (heap st d) →
  ¬ has_key "to" (heap st d) →
  let out := create_csv d output_filename cache_ttl st in
  out.1 = Raise (KeyError "to")
  ∧ heap out.2 d = remove "from" (heap st d)
  ∧ clickhouse_calls out.2 = clickhouse_calls st
  ∧ files out.2 = files st
  ∧ cleaning_jobs out.2 = cleaning_jobs st
  ∧ slogger out.2 = slogger st ++ [LogException].
Proof.
  intros [f Hf]%get_Some_key Ht%get_None_key out. subst out.
  destruct (pop_to_fails d output_filename cache_ttl st f Hf Ht)
    as (H1 & H2 & H3 & H4 & H5 & H6).
  split_and!; try done. by rewrite H2, heap_popped.
Qed.

(** With both keys there, a call gets as far as the query, whatever else
    the dictionary holds. *)
Lemma create_csv_reaches_query (d : nat) (output_filename : string)
    (cache_ttl : Z) (st : worker_state) :
  has_key "from" (heap st d) →
  has_key "to" (heap st d) →
  ∃ query parameters,
    create_csv d output_filename cache_ttl st =
    try_log_reraise (produce' output_filename cache_ttl query parameters)
      (popped d "to" (popped d "from" st)).
Proof.
  intros [f Hf]%get_Some_key [t Ht]%get_Some_key.
  assert (get "to" (heap (popped d "from" st) d) = Some t) as Ht'.
  { by rewrite heap_popped, get_remove_ne. }
  unfold _create_csv, try_log_reraise.
  rewrite (bind_ok _ _ _ _ _ (dict_pop_ok d "from" f st Hf)).
  rewrite (bind_ok _ _ _ _ _ (dict_pop_ok d "to" t _ Ht')).
  erewrite bind_ok by reflexivity.
  destruct (time_condition "to" _ t _) as [conditions parameters].
  by eexists _, _.
Qed.

(** What [produce] leaves behind when it raises, and when it returns. *)
Lemma produce_outcome (output_filename : string) (cache_ttl : Z)
    (query : string) (parameters : dict) (st : worker_state) :
  let out :=
    try_log_reraise
      (produce' output_filename cache_ttl query parameters) st in
  match clickhouse query parameters with
  | None =>
      out.1 = Raise ClickHouseError ∧ files out.2 = files st ∧
      cleaning_jobs out.2 = cleaning_jobs st ∧
      slogger out.2 = slogger st ++ [LogException]
  | Some result =>
      if can_open output_filename then
        out.1 = Ok output_filename ∧
        files out.2 =
          <[output_filename :=
              {| file_ctime := ctime_now;
                 file_rows := column_names result :: result_rows result |}]>
            (files st) ∧
        cleaning_jobs out.2 =
          cleaning_jobs st ++
          [{| time_delta := cache_ttl; file_path := output_filename;
              archive_ctime := ctime_now |}] ∧
        slogger out.2 = slogger st ++ [LogCreated output_filename]
      else
        out.1 = Raise OSError ∧ files out.2 = files st ∧
        cleaning_jobs out.2 = cleaning_jobs st ∧
        slogger out.2 = slogger st ++ [LogException]
  end.
Proof.
  unfold try_log_reraise, produce, client_query, write_csv, getctime.
  unfold enqueue_in, log, mbind, ST_bind, mret, ST_ret. cbn.
  destruct (clickhouse query parameters); cbn; [|done].
  destruct (can_open output_filename); cbn; [|done].
  rewrite lookup_insert_eq. by cbn.
Qed.

(** X13: when both keys are there, ClickHouse answers and the output file
    can be opened, the call returns [output_filename]; the file at that path
    now holds the column names followed by the result rows, every other file
    is as it was, exactly one cleanup is scheduled, for that path, after
    [cache_ttl] and with the change time of the file just written, and the
    success is logged. *)
Theorem create_csv_success (d : nat) (output_filename : string)
    (cache_ttl : Z) (st : worker_state) (f t : pyval)
    (result : query_result) :
  wf (heap st d) →
  get "from" (heap st d) = Some f →
  get "to" (heap st d) = Some t →
  let scalars := remove "to" (remove "from" (heap st d)) in
  clickhouse
    (select_events
       (predicates (keys (populated scalars)) (truthy f) (truthy t)))
    (bound_parameters scalars f t) = Some result →
  can_open output_filename = true →
  let out := create_csv d output_filename cache_ttl st in
  out.1 = Ok output_filename
  ∧ files out.2 !! output_filename =
    Some {| file_ctime := ctime_now;
            file_rows := column_names result :: result_rows result |}
  ∧ (∀ path, path ≠ output_filename →
       files out.2 !! path = files st !! path)
  ∧ cleaning_jobs out.2 =
    cleaning_jobs st ++
    [{| time_delta := cache_ttl; file_path := output_filename;
        archive_ctime := ctime_now |}]
  ∧ slogger out.2 = slogger st ++ [LogCreated output_filename].
Proof.
  intros Hwf Hf Ht scalars Hch Hopen out. subst out.
  rewrite (create_csv_run _ _ _ d output_filename cache_ttl st f t Hwf Hf Ht).
  fold scalars.
  pose proof (produce_outcome output_filename cache_ttl
    (select_events
       (predicates (keys (populated scalars)) (truthy f) (truthy t)))
    (bound_parameters scalars f t)
    (popped d "to" (popped d "from" st))) as H.
  cbn zeta in H. rewrite Hch, Hopen in H.
  destruct H as (H1 & H2 & H3 & H4).
  split_and!; [done| | |done|done].
  - rewrite H2. apply lookup_insert_eq.
  - intros path Hne. rewrite H2. by apply lookup_insert_ne.
Qed.


(** X15: the call touches no dictionary but the one it was given: whatever
    it does and however it ends, every other dictionary on the heap is as it
    was. *)
Theorem create_csv_heap_frame (d a : nat) (output_filename : string)
    (cache_ttl : Z) (st : worker_state) :
  a ≠ d →
  heap (create_csv d output_filename cache_ttl st).2 a = heap st a.
Proof.
  intros Hne.
  destruct (get "from" (heap st d)) as [f|] eqn:Hf.
  2: { by destruct (pop_from_fails d output_filename cache_ttl st Hf)
         as (_ & ? & _). }
  assert (∀ k st0, heap (popped d k st0) a = heap st0 a) as Hpop.
  { intros k st0. unfold popped. cbn. by apply fn_lookup_insert_ne. }
  destruct (get "to" (heap st d)) as [t|] eqn:Ht.
  2: { destruct (pop_to_fails d output_filename cache_ttl st f Hf Ht)
         as (_ & H & _). by rewrite H, Hpop. }
  destruct (create_csv_reaches_query d output_filename cache_ttl st)
    as (query & parameters & E).
  { apply get_Some_key. eauto. }
  { apply get_Some_key. eauto. }
  rewrite E.
  destruct (produce_calls clickhouse can_open ctime_now output_filename
              cache_ttl query parameters
              (popped d "to" (popped d "from" st))) as [_ H].
  by rewrite H, !Hpop.
Qed.

Lemma elem_of_populated (k : string) (v : pyval) (d : dict) :
  (k, v) ∈ populated d → (k, v) ∈ d ∧ truthy v = true.
Proof.
  unfold populated. rewrite !list_elem_of_In, List.filter_In. naive_solver.
Qed.

Lemma elem_of_remove (k0 k : string) (v : pyval) (d : dict) :
  (k, v) ∈ remove k0 d → (k, v) ∈ d.
Proof.
  induction d as [|[k1 v1] d IH]; cbn; [done|].
  destruct (String.eqb k1 k0); rewrite !elem_of_cons; [by right|].
  intros [?|?]; [by left|right; by apply IH].
Qed.

Lemma wf_get (k : string) (v : pyval) (d : dict) :
  wf d → (k, v) ∈ d → get k d = Some v.
Proof.
  unfold wf, keys. induction d as [|[k1 v1] d IH]; cbn.
  - by intros _ ?%elem_of_nil.
  - rewrite NoDup_cons, elem_of_cons. intros [Hk Hd] [[= -> ->]|Hin].
    + by rewrite String.eqb_refl.
    + destruct (String.eqb_spec k1 k) as [->|_]; [|by apply IH].
      destruct Hk. apply list_elem_of_fmap. by exists (k, v).
Qed.

Lemma wf_populated (d : dict) : wf d → wf (populated d).
Proof.
  unfold wf, keys, populated. induction d as [|[k v] d IH]; cbn; [done|].
  rewrite NoDup_cons. intros [Hk Hd].
  destruct (truthy v); cbn; [|by apply IH].
  apply NoDup_cons. split; [|by apply IH].
  intros Hin. apply Hk. by apply keys_populated.
Qed.

(** X16: in the query issued for a dictionary with both keys, every
    placeholder has a parameter bound under the same name and there is no
    parameter without a placeholder; no name is bound twice; and each bound
    value is populated and is the caller's own value for that name. *)
Theorem parameters_match_placeholders (d : nat) (output_filename : string)
    (cache_ttl : Z) (st : worker_state) (f t : pyval) :
  wf (heap st d) →
  get "from" (heap st d) = Some f →
  get "to" (heap st d) = Some t →
  ∃ names parameters,
    clickhouse_calls (create_csv d output_filename cache_ttl st).2 =
      clickhouse_calls st ++
      [(select_events (predicates names (truthy f) (truthy t)), parameters)]
    ∧ keys parameters =
      names ++ (if truthy f then ["from"] else [])
            ++ (if truthy t then ["to"] else [])
    ∧ NoDup (keys parameters)
    ∧ ∀ k v, (k, v) ∈ parameters →
        truthy v = true ∧ get k (heap st d) = Some v.
Proof.
  intros Hwf Hf Ht.
  set (scalars := remove "to" (remove "from" (heap st d))).
  exists (keys (populated scalars)), (bound_parameters scalars f t).
  assert (wf scalars) as Hws by (by do 2 apply wf_remove).
  assert ("to" ∉ keys scalars) as Hto.
  { apply remove_key_gone. exact (wf_remove _ _ Hwf). }
  assert ("from" ∉ keys scalars) as Hfrom.
  { intros H%keys_remove. exact (remove_key_gone _ _ Hwf H). }
  assert (keys (bound_parameters scalars f t) =
          keys (populated scalars) ++ (if truthy f then ["from"] else [])
            ++ (if truthy t then ["to"] else [])) as Hkeys.
  { unfold bound_parameters, keys. rewrite !fmap_app.
    by destruct (truthy f), (truthy t). }
  split_and!.
  - rewrite (create_csv_run _ _ _ d output_filename cache_ttl st f t
               Hwf Hf Ht).
    by destruct (produce_calls clickhouse can_open ctime_now output_filename
      cache_ttl
      (select_events
         (predicates (keys (populated scalars)) (truthy f) (truthy t)))
      (bound_parameters scalars f t)
      (popped d "to" (popped d "from" st))) as [Hc _].
  - exact Hkeys.
  - rewrite Hkeys. apply NoDup_app. split_and!.
    + by apply wf_populated.
    + intros x Hx%keys_populated Hin.
      destruct (truthy f), (truthy t); cbn in Hin;
        repeat (apply elem_of_cons in Hin as [->|Hin]; [done|]);
        by apply elem_of_nil in Hin.
    + destruct (truthy f), (truthy t); cbn; repeat constructor;
        try (by intros ?%elem_of_nil).
      by intros [=]%list_elem_of_singleton.
  - intros k v. unfold bound_parameters. rewrite !elem_of_app.
    intros [Hin|[Hin|Hin]].
    + apply elem_of_populated in Hin as [Hin Htr]. split; [done|].
      apply wf_get; [done|]. by do 2 apply elem_of_remove in Hin.
    + destruct (truthy f) eqn:Htr; [|by apply elem_of_nil in Hin].
      by apply list_elem_of_singleton in Hin as [= -> ->].
    + destruct (truthy t) eqn:Htr; [|by apply elem_of_nil in Hin].
      by apply list_elem_of_singleton in Hin as [= -> ->].
Qed.

End WorkerMore.

(** ** From the request to the query *)

Section EndToEnd.
Import PyDict PyDictFacts.

Variable parse_timestamp : string → option float.
Variable uuid4 : string.
Variable now : string.
Variable path_exists : string → bool.
Variable TMP_FILES_ROOT : string.

Abbreviation export' :=
  (export parse_timestamp uuid4 now path_exists TMP_FILES_ROOT).
Abbreviation job_id' := (job_id_of uuid4).
Abbreviation valid' := (valid parse_timestamp).

Lemma scoped_populated (request : Request) :
  scoped request = true → populated (scope_filters request) ≠ [].
Proof.
  unfold scoped, populated, scope_filters. cbn.
  destruct (truthy (param request "org")); [done|].
  destruct (truthy (param request "project")); [done|].
  destruct (truthy (param request "task")); [done|].
  destruct (truthy (param request "job")); [done|].
  by destruct (truthy (param request "user")).
Qed.

Lemma valid_scoped (request : Request) : valid' request → scoped request = true.
Proof.
  intros (_ & _ & Hinv). destruct (scoped request) eqn:Hs; [done|].
  destruct Hinv. left. by apply scoped_false.
Qed.

(** X10: the dictionary a valid first request enqueues has the seven keys,
    each once, so the worker's two pops cannot fail; and the query the worker
    then issues for it always has a [WHERE] clause with at least one
    predicate: a job enqueued by [export] never selects the whole table. *)
Theorem enqueued_job_runs_narrowed_query (request : Request)
    (st : rq_state) :
  valid' request →
  rq_jobs st !! job_id' request = None →
  ∃ job qp out ttl,
    rq_jobs (export' request st).2 !! job_id' request = Some job
    ∧ job_args job = (qp, out, ttl)
    ∧ keys qp =
      ["organization"; "project"; "task"; "job"; "user"; "from"; "to"]
    ∧ ∀ clickhouse can_open ctime_now (wst : worker_state) (d : nat),
        heap wst d = qp →
        ∃ preds parameters,
          preds ≠ [] ∧
          clickhouse_calls
            (_create_csv clickhouse can_open ctime_now d out ttl wst).2 =
          clickhouse_calls wst ++
          [("SELECT * FROM events" +:+ " WHERE " +:+
              String.concat " AND " preds, parameters)].
Proof.
  intros Hv Hn.
  destruct (valid_parsed parse_timestamp request Hv)
    as (f & t & _ & _ & Hc).
  rewrite export_phases, Hc. erewrite serve_absent by done.
  eexists _, (filters request f t), _, _.
  split_and!; [apply lookup_insert_eq|reflexivity|reflexivity|].
  intros clickhouse can_open ctime_now wst d Hd.
  assert (wf (heap wst d)) as Hwf.
  { rewrite Hd. apply (bool_decide_unpack _). by vm_compute. }
  rewrite (create_csv_run clickhouse can_open ctime_now d _ _ wst f t Hwf)
    by (by rewrite Hd).
  destruct (produce_calls clickhouse can_open ctime_now
    (os_path_join TMP_FILES_ROOT (query_id_of uuid4 request +:+ ".csv"))
    DEFAULT_CACHE_TTL
    (select_events
       (predicates
          (keys (populated (remove "to" (remove "from" (heap wst d)))))
          (truthy f) (truthy t)))
    (bound_parameters (remove "to" (remove "from" (heap wst d))) f t)
    (popped d "to" (popped d "from" wst))) as [Hcalls _].
  rewrite Hcalls, Hd.
  change (remove "to" (remove "from" (filters request f t)))
    with (scope_filters request).
  pose proof (scoped_populated request (valid_scoped request Hv)) as Hpop.
  set (preds := predicates (keys (populated (scope_filters request)))
                  (truthy f) (truthy t)).
  assert (preds ≠ []) as Hne.
  { subst preds. unfold predicates, keys.
    destruct (populated (scope_filters request)); [done|]. by cbn. }
  exists preds, (bound_parameters (scope_filters request) f t).
  split; [done|]. unfold select_events. by destruct preds.
Qed.

End EndToEnd.

(** ** More properties of the job identifier and of the artifact path *)

Lemma append_assoc (s1 s2 s3 : string) :
  (s1 +:+ s2) +:+ s3 = s1 +:+ (s2 +:+ s3).
Proof.
  induction s1 as [|a s1 IH]; [reflexivity|].
  change (String a ((s1 +:+ s2) +:+ s3) = String a (s1 +:+ (s2 +:+ s3))).
  by rewrite IH.
Qed.

(** X17: JobIds of different users can coincide. A query id that ends in
    [-by-<name>] shifts the boundary between query id and user: for all
    [q], [u] and [w], user [w] with query id [q-by-u] derives the JobId of
    user [u-by-w] with query id [q], though the two pairs differ. *)
Theorem job_id_collision (q u w : string) :
  rq_id_of (q +:+ "-by-" +:+ u) w = rq_id_of q (u +:+ "-by-" +:+ w)
  ∧ (q +:+ "-by-" +:+ u, w) ≠ (q, u +:+ "-by-" +:+ w).
Proof.
  split.
  - unfold rq_id_of. f_equal. by rewrite !append_assoc.
  - intros [= _ H]. apply (f_equal String.length) in H.
    rewrite !length_append in H. cbn in H. lia.
Qed.

(** X18: with the same query id, different users always derive different
    JobIds. *)
Theorem job_id_user_injective (q u1 u2 : string) :
  rq_id_of q u1 = rq_id_of q u2 ↔ u1 = u2.
Proof.
  split; [|by intros ->]. unfold rq_id_of. intros H.
  apply (inj (String.app _)) in H. apply (inj (String.app _)) in H.
  by apply (inj (String.app _)) in H.
Qed.

Lemma prefix_cons (c a : Ascii.ascii) (s1 s2 : string) :
  String.prefix (String c s1) (String a s2) =
  if Ascii.ascii_dec c a then String.prefix s1 s2 else false.
Proof. reflexivity. Qed.

Lemma prefix_empty (s : string) : String.prefix "" s = true.
Proof. by destruct s. Qed.

Lemma prefix_slash_append (s t : string) :
  String.prefix "/" s = true → String.prefix "/" (s +:+ t) = true.
Proof.
  destruct s as [|a s]; [done|].
  change (String a s +:+ t) with (String a (s +:+ t)).
  rewrite !prefix_cons. destruct (Ascii.ascii_dec _ a); [|done].
  intros _. apply prefix_empty.
Qed.

Lemma prefix_slash_append_false (s t : string) :
  s ≠ "" → String.prefix "/" s = false → String.prefix "/" (s +:+ t) = false.
Proof.
  destruct s as [|a s]; [done|]. intros _.
  change (String a s +:+ t) with (String a (s +:+ t)).
  rewrite !prefix_cons. destruct (Ascii.ascii_dec _ a); [|done].
  by rewrite !prefix_empty.
Qed.

Lemma prefix_append (s t : string) : String.prefix s (s +:+ t) = true.
Proof.
  induction s as [|a s IH]; [apply prefix_empty|].
  change (String a s +:+ t) with (String a (s +:+ t)).
  rewrite prefix_cons. by destruct (Ascii.ascii_dec a a).
Qed.

Section ArtifactPath.

Variable parse_timestamp : string → option float.
Variable uuid4 : string.
Variable now : string.
Variable path_exists : string → bool.
Variable TMP_FILES_ROOT : string.

Abbreviation export' :=
  (export parse_timestamp uuid4 now path_exists TMP_FILES_ROOT).
Abbreviation job_id' := (job_id_of uuid4).
Abbreviation valid' := (valid parse_timestamp).

(** X19: a query id that starts with [/] takes the artifact out of
    [TMP_FILES_ROOT]: the job enqueued for it is told to write
    [<query_id>.csv] as it stands, an absolute path of the caller's
    choosing. *)
Theorem absolute_query_id_escapes_root (request : Request) (st : rq_state)
    (q : string) :
  valid' request →
  rq_jobs st !! job_id' request = None →
  supplies_query_id request q →
  String.prefix "/" q = true →
  ∃ job, rq_jobs (export' request st).2 !! job_id' request = Some job
         ∧ (job_args job).1.2 = q +:+ ".csv".
Proof.
  intros Hv Hn Hq Hslash.
  destruct (valid_parsed parse_timestamp request Hv)
    as (f & t & _ & _ & Hc).
  destruct (job_id_supplied request q uuid4 Hq) as [_ Hqid].
  rewrite export_phases, Hc. erewrite serve_absent by done.
  eexists. split; [apply lookup_insert_eq|]. cbn.
  rewrite Hqid. unfold os_path_join.
  by rewrite (prefix_slash_append q ".csv" Hslash).
Qed.

(** X20: for every other query id the path of the artifact begins with
    [TMP_FILES_ROOT]. *)
Theorem artifact_path_under_root (request : Request) (st : rq_state) :
  valid' request →
  rq_jobs st !! job_id' request = None →
  query_id_of uuid4 request ≠ "" →
  String.prefix "/" (query_id_of uuid4 request) = false →
  ∃ job, rq_jobs (export' request st).2 !! job_id' request = Some job
         ∧ String.prefix TMP_FILES_ROOT (job_args job).1.2 = true.
Proof.
  intros Hv Hn Hne Hslash.
  destruct (valid_parsed parse_timestamp request Hv)
    as (f & t & _ & _ & Hc).
  rewrite export_phases, Hc. erewrite serve_absent by done.
  eexists. split; [apply lookup_insert_eq|]. cbn.
  unfold os_path_join.
  rewrite (prefix_slash_append_false _ ".csv" Hne Hslash).
  destruct (bool_decide (TMP_FILES_ROOT = "") ||
            String.prefix "/" (String.rev TMP_FILES_ROOT));
    apply prefix_append.
Qed.

End ArtifactPath.

(** ** The further properties on the scenarios *)

Section OnScenarios2.
Import Scenario Scenario2.

Lemma absolute_request_valid : valid parse absolute_request.
Proof.
  split_and!.
  - intros (s & H1 & _). vm_compute in H1. discriminate H1.
  - intros (s & H1 & _). vm_compute in H1. discriminate H1.
  - intros [H|[H|H]].
    + specialize (H "task" ltac:(by repeat constructor)).
      vm_compute in H. discriminate H.
    + destruct H as (s1 & s2 & f & t & H1 & _). vm_compute in H1.
      discriminate H1.
    + destruct H as (a & H1 & _). vm_compute in H1. discriminate H1.
Qed.

Lemma poll_supplies_q1 : supplies_query_id poll_request "q1".
Proof. split; [by vm_compute|done]. Qed.

Lemma download_supplies_q1 : supplies_query_id download_request "q1".
Proof. split; [by vm_compute|done]. Qed.

(** X1 on the scenario: the first request for [q1]. *)
Lemma first_submission_witness :
  export parse uuid now on_disk root poll_request empty_queue =
  (Ok (Response (Some (BodyDict [("query-id", "q1")])) HTTP_202_ACCEPTED),
   {| rq_jobs := {[ job_id := job_in QUEUED ]};
      rq_log := [FetchJob job_id; EnqueueCall job_id] |}).
Proof.
  destruct (first_submission parse uuid now on_disk root poll_request
              empty_queue) as (f & t & Hf & Ht & E).
  - exact poll_request_valid.
  - by vm_compute.
  - vm_compute in Hf, Ht. injection Hf as <-. injection Ht as <-.
    rewrite E. reflexivity.
Defined.

(** X2 on the scenario: two polls, the second asking for the download,
    while the job is running. *)
Lemma pending_polls_change_nothing_witness :
  polls parse on_disk root [(uuid, now); (uuid, now)] download_request
    (queue_with (job_in STARTED)) =
  (replicate 2
     (Ok (Response (Some (BodyDict [("query-id", "q1")])) HTTP_202_ACCEPTED)),
   {| rq_jobs := rq_jobs (queue_with (job_in STARTED));
      rq_log := rq_log (queue_with (job_in STARTED)) ++
        replicate 2 (FetchJob (rq_id_of "q1" (user download_request))) |}).
Proof.
  apply (pending_polls_change_nothing parse on_disk root download_request
           "q1" (job_in STARTED) [(uuid, now); (uuid, now)]
           (queue_with (job_in STARTED))).
  - exact download_request_valid.
  - exact download_supplies_q1.
  - by vm_compute.
  - by split.
Defined.

(** X3 on the scenario: a submission and three polls, a worker taking the
    job up after the first and another request coming in after the
    second. *)
Lemma one_submission_many_polls_witness :
  enqueue_count
    (rq_log
       (polls_amid parse on_disk root
          [(worker_starts, (uuid, now)); (other_submission, (uuid, now));
           (id, (uuid, now))]
          poll_request
          (export parse uuid now on_disk root poll_request empty_queue).2).2)
  = 1.
Proof.
  destruct (one_submission_many_polls parse uuid now on_disk root
              poll_request "q1"
              [(worker_starts, (uuid, now)); (other_submission, (uuid, now));
               (id, (uuid, now))]
              empty_queue) as (_ & H & _).
  - exact poll_request_valid.
  - exact poll_supplies_q1.
  - by vm_compute.
  - constructor; [|constructor; [|constructor; [|constructor]]].
    + intros m job _ _. exists (job_in STARTED).
      split; [apply lookup_insert_eq|by split].
    + intros m job Hj Hp. exists job. split; [|done].
      cbn [fst]. unfold other_submission.
      rewrite lookup_insert_ne; [done|by vm_compute].
    + intros m job Hj Hp. by exists job.
  - exact H.
Defined.

(** X4 on the scenario: the download, then the same request again. *)
Lemma download_then_poll_resubmits_witness :
  (export parse uuid now on_disk root download_request
     (export parse uuid now on_disk root download_request
        (queue_with (job_in (FINISHED artifact)))).2).1 =
  Ok (Response (Some (BodyDict [("query-id", "q1")])) HTTP_202_ACCEPTED).
Proof.
  destruct (download_then_poll_resubmits parse uuid now on_disk root
              download_request (queue_with (job_in (FINISHED artifact)))
              (job_in (FINISHED artifact)) artifact uuid now on_disk
              download_request) as [H _].
  - exact download_request_valid.
  - by vm_compute.
  - reflexivity.
  - by vm_compute.
  - by vm_compute.
  - exact download_request_valid.
  - reflexivity.
  - exact H.
Defined.

(** X5 on the scenario: the download of [q1] leaves user3's job alone. *)
Lemma other_jobs_untouched_witness :
  rq_jobs (export parse uuid now on_disk root download_request
             shared_queue).2 !! other_job_id = Some (job_in STARTED).
Proof.
  rewrite (other_jobs_untouched parse uuid now on_disk root download_request
             shared_queue other_job_id).
  - by vm_compute.
  - by vm_compute.
Defined.

(** X7 on the scenario of a [from] that is no date: what is raised there is
    no validation error, and it is the conversion of [from] that failed. *)
Lemma export_raises_only_witness :
  unparseable parse undated_request "from" ∨
  unparseable parse undated_request "to" ∨
  ParserError = ValidationError msg_range ∨
  ParserError = ValidationError msg_scope ∨
  ParserError = ValidationError msg_action.
Proof.
  apply (export_raises_only parse uuid now on_disk root undated_request
           empty_queue).
  by vm_compute.
Defined.

(** X8 on a request that fails all three checks: the range is reported. *)
Lemma validation_precedence_witness :
  export parse uuid now on_disk root hopeless_request empty_queue =
  (Raise (ValidationError msg_range), empty_queue).
Proof.
  destruct (validation_precedence parse uuid now on_disk root
              hopeless_request empty_queue) as [H _].
  - vm_compute. right. eexists. split; reflexivity.
  - vm_compute. right. eexists. split; reflexivity.
  - apply H.
    exists "2023-02-01T00:00:00Z", "2023-01-01T00:00:00Z",
      1675209600%float, 1672531200%float.
    split_and!; by vm_compute.
Defined.

(** X9 on the scenario: rejected on an empty queue, rejected on a full
    one. *)
Lemma rejection_independent_of_queue_witness :
  export parse uuid now on_disk root undated_request shared_queue =
  (Raise ParserError, shared_queue).
Proof.
  apply (rejection_independent_of_queue parse uuid now on_disk root
           undated_request empty_queue shared_queue).
  by vm_compute.
Defined.

(** X10 on the scenario: the job enqueued for [q1], run by the worker. *)
Lemma enqueued_job_runs_narrowed_query_witness :
  ∃ preds parameters,
    preds ≠ [] ∧
    clickhouse_calls
      (_create_csv clickhouse_up writable 1677672000%float 0 artifact
         DEFAULT_CACHE_TTL worker).2 =
    clickhouse_calls worker ++
    [("SELECT * FROM events" +:+ " WHERE " +:+ String.concat " AND " preds,
      parameters)].
Proof.
  destruct (enqueued_job_runs_narrowed_query parse uuid now on_disk root
              poll_request empty_queue)
    as (job & qp & out & ttl & Hj & Ha & _ & Hw).
  - exact poll_request_valid.
  - by vm_compute.
  - vm_compute in Hj. injection Hj as <-.
    vm_compute in Ha. injection Ha as <- <- <-.
    apply (Hw clickhouse_up writable 1677672000%float worker 0).
    reflexivity.
Defined.

(** X11 on the scenario of a dictionary without [from]. *)
Lemma missing_from_key_witness :
  (_create_csv clickhouse_up writable 1677672000%float 0 artifact
     DEFAULT_CACHE_TTL (worker_with no_from)).1 = Raise (KeyError "from").
Proof.
  destruct (missing_from_key clickhouse_up writable 1677672000%float 0
              artifact DEFAULT_CACHE_TTL (worker_with no_from)) as [H _].
  - unfold PyDict.has_key. apply (bool_decide_unpack _). by vm_compute.
  - exact H.
Defined.

(** X12 on the scenario of a dictionary without [to]: [from] is gone. *)
Lemma missing_to_key_witness :
  (_create_csv clickhouse_up writable 1677672000%float 0 artifact
     DEFAULT_CACHE_TTL (worker_with no_to)).1 = Raise (KeyError "to")
  ∧ heap (_create_csv clickhouse_up writable 1677672000%float 0 artifact
            DEFAULT_CACHE_TTL (worker_with no_to)).2 0 =
    [("task", PyStr "5")].
Proof.
  destruct (missing_to_key clickhouse_up writable 1677672000%float 0
              artifact DEFAULT_CACHE_TTL (worker_with no_to))
    as (H1 & H2 & _).
  - unfold PyDict.has_key. apply (bool_decide_unpack _). by vm_compute.
  - unfold PyDict.has_key. apply (bool_decide_unpack _). by vm_compute.
  - split; [exact H1|exact H2].
Defined.

(** X13 on the scenario of a successful run. *)
Lemma create_csv_success_witness :
  (_create_csv clickhouse_up writable 1677672000%float 0 artifact
     DEFAULT_CACHE_TTL worker).1 = Ok artifact
  ∧ cleaning_jobs
      (_create_csv clickhouse_up writable 1677672000%float 0 artifact
         DEFAULT_CACHE_TTL worker).2 =
    [{| time_delta := 3600; file_path := artifact;
        archive_ctime := 1677672000%float |}].
Proof.
  destruct (create_csv_success clickhouse_up writable 1677672000%float 0
              artifact DEFAULT_CACHE_TTL worker
              (PyFloat 1672531200) (PyFloat 1675209600)
              {| column_names := ["timestamp"; "task_id"];
                 result_rows := [["2023-01-15 10:00:00"; "5"]] |})
    as (H1 & _ & _ & H4 & _).
  - apply (bool_decide_unpack _). by vm_compute.
  - reflexivity.
  - reflexivity.
  - reflexivity.
  - reflexivity.
  - split; [exact H1|exact H4].
Defined.


(** X15 on the scenario: the dictionary at address 1 is as it was. *)
Lemma create_csv_heap_frame_witness :
  heap (_create_csv clickhouse_up writable 1677672000%float 0 artifact
          DEFAULT_CACHE_TTL (worker_with enqueued_filters)).2 1 =
  [("task", PyStr "9")].
Proof.
  rewrite (create_csv_heap_frame clickhouse_up writable 1677672000%float
             0 1 artifact DEFAULT_CACHE_TTL (worker_with enqueued_filters)).
  - reflexivity.
  - lia.
Defined.

(** X16 on the scenario. *)
Lemma parameters_match_placeholders_witness :
  ∃ names parameters,
    clickhouse_calls
      (_create_csv clickhouse_up writable 1677672000%float 0 artifact
         DEFAULT_CACHE_TTL worker).2 =
      clickhouse_calls worker ++
      [(select_events
          (predicates names (truthy (PyFloat 1672531200))
             (truthy (PyFloat 1675209600))), parameters)]
    ∧ PyDict.keys parameters =
      names ++ (if truthy (PyFloat 1672531200) then ["from"] else [])
            ++ (if truthy (PyFloat 1675209600) then ["to"] else [])
    ∧ NoDup (PyDict.keys parameters)
    ∧ ∀ k v, (k, v) ∈ parameters →
        truthy v = true ∧ PyDict.get k (heap worker 0) = Some v.
Proof.
  apply (parameters_match_placeholders clickhouse_up writable
           1677672000%float 0 artifact DEFAULT_CACHE_TTL worker
           (PyFloat 1672531200) (PyFloat 1675209600)).
  - apply (bool_decide_unpack _). by vm_compute.
  - reflexivity.
  - reflexivity.
Defined.

(** X19 on the scenario of the query id [/srv/data/out]. *)
Lemma absolute_query_id_escapes_root_witness :
  ∃ job,
    rq_jobs (export parse uuid now on_disk root absolute_request
               empty_queue).2 !! job_id_of uuid absolute_request = Some job
    ∧ (job_args job).1.2 = "/srv/data/out.csv".
Proof.
  apply (absolute_query_id_escapes_root parse uuid now on_disk root
           absolute_request empty_queue "/srv/data/out").
  - exact absolute_request_valid.
  - by vm_compute.
  - split; [by vm_compute|done].
  - reflexivity.
Defined.

(** X20 on the scenario of the query id [q1]. *)
Lemma artifact_path_under_root_witness :
  ∃ job,
    rq_jobs (export parse uuid now on_disk root poll_request
               empty_queue).2 !! job_id_of uuid poll_request = Some job
    ∧ String.prefix root (job_args job).1.2 = true.
Proof.
  apply (artifact_path_under_root parse uuid now on_disk root poll_request
           empty_queue).
  - exact poll_request_valid.
  - by vm_compute.
  - by vm_compute.
  - by vm_compute.
Defined.

(** X21 on the scenario: three polls of the finished job. *)
Lemma ready_polls_change_nothing_witness :
  polls parse on_disk root [(uuid, now); (uuid, now); (uuid, now)]
    poll_request (queue_with (job_in (FINISHED artifact))) =
  (replicate 3 (Ok (Response None HTTP_201_CREATED)),
   {| rq_jobs := rq_jobs (queue_with (job_in (FINISHED artifact)));
      rq_log := rq_log (queue_with (job_in (FINISHED artifact))) ++
        replicate 3 (FetchJob (rq_id_of "q1" (user poll_request))) |}).
Proof.
  apply (ready_polls_change_nothing parse on_disk root poll_request "q1"
           (job_in (FINISHED artifact)) artifact
           [(uuid, now); (uuid, now); (uuid, now)]
           (queue_with (job_in (FINISHED artifact)))).
  - exact poll_request_valid.
  - exact poll_supplies_q1.
  - by vm_compute.
  - by vm_compute.
  - reflexivity.
  - by vm_compute.
Defined.

(** X22 on the scenario: the failure is reported, the next poll starts
    over. *)
Lemma failure_then_poll_resubmits_witness :
  (export parse uuid now on_disk root poll_request
     (export parse uuid now on_disk root poll_request
        (queue_with (job_in (FAILED (Some traceback))))).2).1 =
  Ok (Response (Some (BodyDict [("query-id", "q1")])) HTTP_202_ACCEPTED).
Proof.
  destruct (failure_then_poll_resubmits parse uuid now on_disk root
              poll_request (queue_with (job_in (FAILED (Some traceback))))
              (job_in (FAILED (Some traceback))) (Some traceback)
              uuid now on_disk poll_request) as [H _].
  - exact poll_request_valid.
  - by vm_compute.
  - reflexivity.
  - exact poll_request_valid.
  - reflexivity.
  - exact H.
Defined.

(** C5, where the code departs from it: an upper bound at the epoch is
    dropped. The request for the events of task 5 between 1969-12-31 and
    1970-01-01 passes the checks and is enqueued with [to] = 0.0; the worker
    tests the truth value of that timestamp, finds it false, and issues a
    query with the lower bound only, though [to] is set. *)
Theorem epoch_upper_bound_is_dropped :
  (∃ job,
     rq_jobs (export parse uuid now on_disk root epoch_to_request
                empty_queue).2 !! job_id = Some job
     ∧ job_args job = (epoch_to_filters, artifact, DEFAULT_CACHE_TTL))
  ∧ PyDict.get "to" epoch_to_filters = Some (PyFloat 0)
  ∧ clickhouse_calls
      (_create_csv clickhouse_up writable 1677672000%float 0 artifact
         DEFAULT_CACHE_TTL (worker_with epoch_to_filters)).2 =
    [("SELECT * FROM events WHERE task = {task:UInt64} AND timestamp >= {from:DateTime64}",
      [("task", PyStr "5"); ("from", PyFloat (-86400))])].
Proof.
  split_and!.
  - eexists. split; by vm_compute.
  - reflexivity.
  - by vm_compute.
Qed.

End OnScenarios2.
